(** * The program-course nudge command

    A shallow embedding of the management command
    [send_program_course_nudge_email] (class [Command]) and the properties
    of its selection, ranking and event-emission logic.

    Conventions of the embedding.
    - Catalog records (programs, courses, course runs) are Python dicts with a
      fixed set of keys; they are records here, one module per record so that
      the keys keep their names.
    - The dict objects the command holds references to (the program dicts
      returned by the catalog and the progress dicts returned by the progress
      meter) live in a store and are handled through references, because
      [sort_programs] writes into them.
    - A method is a computation in the monad [M]: it takes the world (the two
      stores, the calls received by the analytics sink, the log) and ends
      either normally or by raising, with the world it has reached. *)

From Stdlib Require Import ZArith String Ascii List Lia Sorting.Sorted.
From stdpp Require Import base tactics option list strings sorting gmap.

Open Scope Z_scope.
Open Scope string_scope.
Open Scope list_scope.

(** ** A fragment of the Python runtime *)

Module Py.

(** The built-in exceptions the command can run into. [InvalidReference] is
    not a Python exception: it is what the embedding answers when a reference
    is not in the store, which no Python execution can observe. *)
Inductive exn : Type :=
| ValueError
| TypeError
| KeyError
| AttributeError
| InvalidReference.

(** How a call ends. *)
Inductive outcome (A : Type) : Type :=
| Ok (a : A)
| Raise (e : exn).
Arguments Ok {A} a.
Arguments Raise {A} e.

(** Truth value testing, as [if x] and [x and y] perform it. *)
Class Truthy (A : Type) := truthy : A -> bool.

#[global] Instance truthy_bool : Truthy bool := fun b => b.
#[global] Instance truthy_str : Truthy string :=
  fun s => match s with EmptyString => false | String _ _ => true end.
#[global] Instance truthy_list {A} : Truthy (list A) :=
  fun l => match l with [] => false | _ :: _ => true end.
(** A value that may be [None]: [None] is false, otherwise the value decides. *)
#[global] Instance truthy_option {A} `{Truthy A} : Truthy (option A) :=
  fun o => match o with None => false | Some a => truthy a end.

(** [for x in xs: ...] whose body may [return]: the loop ends at the first
    element whose body returns, with that value; [None] when the loop runs
    to its end. *)
Fixpoint for_return {A R : Type} (xs : list A) (body : A -> option R) : option R :=
  match xs with
  | [] => None
  | x :: rest =>
      match body x with
      | Some r => Some r
      | None => for_return rest body
      end
  end.

(** [sorted(xs, key=...)] once the keys are computed: the elements are paired
    with their keys and arranged by non-decreasing key; elements with equal
    keys keep their order.  [insert_by_key] puts an element in front of the
    first one whose key is not smaller. *)
Fixpoint insert_by_key {A : Type} (x : Z * A) (l : list (Z * A)) : list (Z * A) :=
  match l with
  | [] => [x]
  | y :: rest =>
      if (fst x <=? fst y)%Z then x :: y :: rest else y :: insert_by_key x rest
  end.

Definition sort_by_key {A : Type} (l : list (Z * A)) : list (Z * A) :=
  foldr insert_by_key [] l.

End Py.
Export Py.

(** ** Data model: the dicts of the catalog and of the progress meter *)

Module Image.
Record t : Type := mk { src : option string }.
End Image.

(** A dict is true when it has a key; the records below always have. *)
#[global] Instance truthy_image : Truthy Image.t := fun _ => true.

Module CourseRun.
Record t : Type := mk {
  key : string;
  title : string;
  short_description : option string;
  is_enrollable : bool;
  is_marketable : bool;
  marketing_url : option string;
  image : option Image.t;
  status : string
}.
End CourseRun.

Module Course.
Record t : Type := mk {
  key : string;
  course_runs : list CourseRun.t
}.
End Course.

Module Program.
Record t : Type := mk {
  uuid : string;
  type : string;
  title : string;
  courses : list Course.t;
  (** the key [sort_programs] adds; absent from a catalog record *)
  sort_revenue_order : option Z
}.
End Program.

(** An entry of [ProgramProgressMeter.progress(count_only=False)]. *)
Module ProgramProgress.
Record t : Type := mk {
  uuid : string;
  completed : list Course.t;
  in_progress : list Course.t;
  not_started : list Course.t
}.
End ProgramProgress.

Module User.
Record t : Type := mk { id : Z; username : string }.
End User.

Module EnterpriseCustomer.
Record t : Type := mk { slug : string; enable_learner_portal : bool }.
End EnterpriseCustomer.

Module EnterpriseLearner.
Record t : Type := mk { enterprise_customer : EnterpriseCustomer.t }.
End EnterpriseLearner.

(** Modelled from the spec: the constant [COURSE_PUBLISHED] of
    [openedx.core.constants], which is not among the sources; the spec names
    the status "published". *)
Definition COURSE_PUBLISHED : string := "published".

(** ** The world of the command *)

(** References are positions in a store. *)
Abbreviation loc := nat (only parsing).

(** What [segment.track(user_id, event_name, properties)] receives. *)
Module Event.
Record properties : Type := mk_properties {
  COURSE_ONE_NAME : string;
  PROGRAM_TYPE : string;
  PROGRAM_TITLE : string;
  COURSE_TWO_NAME : string;
  COURSE_TWO_SHORT_DESCRIPTION : option string;
  COURSE_TWO_LINK : option string;
  COURSE_TWO_IMAGE_LINK : option string
}.
Record t : Type := mk { user_id : Z; name : string; props : properties }.
End Event.

(** The three [LOGGER.info] calls of the command, with their arguments. *)
Inductive log_record : Type :=
| LogPassingGrades (grades : nat) (yesterday : Z) (users courses : nat)
| LogEventFired (completed_course program suggested_course username : string)
| LogEmailsSent (count : nat) (records : list string).

Record World : Type := mkWorld {
  programs : list Program.t;                (* program dicts, by reference *)
  progress : list ProgramProgress.t;        (* progress dicts, by reference *)
  segment_calls : list Event.t;             (* calls the sink has received *)
  log : list log_record
}.

Definition M (A : Type) : Type := World -> outcome A * World.

#[global] Instance M_ret : MRet M := fun A a w => (Ok a, w).
#[global] Instance M_bind : MBind M := fun A B f m w =>
  match m w with
  | (Ok a, w') => f a w'
  | (Raise e, w') => (Raise e, w')
  end.

Definition raise {A : Type} (e : exn) : M A := fun w => (Raise e, w).

(** Reading and writing the dict behind a reference. *)
Definition read_program (l : loc) : M Program.t := fun w =>
  match programs w !! l with
  | Some p => (Ok p, w)
  | None => (Raise InvalidReference, w)
  end.

Definition read_progress (l : loc) : M ProgramProgress.t := fun w =>
  match progress w !! l with
  | Some p => (Ok p, w)
  | None => (Raise InvalidReference, w)
  end.

Definition write_program (l : loc) (p : Program.t) : M unit := fun w =>
  match programs w !! l with
  | Some _ =>
      (Ok tt, mkWorld (<[l := p]> (programs w)) (progress w) (segment_calls w) (log w))
  | None => (Raise InvalidReference, w)
  end.

(** Fresh dicts handed over by a collaborator: they are added to the store and
    their references returned, in order. *)
Definition new_programs (ps : list Program.t) : M (list loc) := fun w =>
  (Ok (seq (length (programs w)) (length ps)),
   mkWorld (programs w ++ ps) (progress w) (segment_calls w) (log w)).

Definition new_progress (ps : list ProgramProgress.t) : M (list loc) := fun w =>
  (Ok (seq (length (progress w)) (length ps)),
   mkWorld (programs w) (progress w ++ ps) (segment_calls w) (log w)).

Definition segment_track (user_id : Z) (name : string) (props : Event.properties) : M unit :=
  fun w =>
    (Ok tt, mkWorld (programs w) (progress w)
                    (segment_calls w ++ [Event.mk user_id name props]) (log w)).

Definition LOGGER_info (r : log_record) : M unit := fun w =>
  (Ok tt, mkWorld (programs w) (progress w) (segment_calls w) (log w ++ [r])).

(** [for x in xs: body] in [M], where the body may [return r] ([Some r]) or
    fall through to the next element ([None]). *)
Fixpoint for_return_M {A R : Type} (xs : list A) (body : A -> M (option R)) : M (option R) :=
  match xs with
  | [] => mret None
  | x :: rest =>
      r ← body x;
      match r with
      | Some v => mret (Some v)
      | None => for_return_M rest body
      end
  end.

(** [for x in xs: body] in [M], where the body updates a local variable. *)
Fixpoint for_each_M {A S : Type} (xs : list A) (body : S -> A -> M S) (s : S) : M S :=
  match xs with
  | [] => mret s
  | x :: rest => s' ← body s x; for_each_M rest body s'
  end.

(** The values a tuple of [get_course_run_to_suggest] holds. *)
Inductive pyobj : Type :=
| PyNone
| PyProgressRef (l : loc)
| PyCourseRun (r : CourseRun.t)
| PyCourse (c : Course.t).

Arguments PyProgressRef l%_nat.

#[global] Instance truthy_pyobj : Truthy pyobj :=
  fun o => match o with PyNone => false | _ => true end.

(** ** The methods of [Command] concerned with selection *)

(** [valid_course_run]: the [and] chain is only used for its truth value. *)
Definition valid_course_run (course_run : CourseRun.t) : bool :=
  truthy (CourseRun.is_enrollable course_run)
  && truthy (CourseRun.is_marketable course_run)
  && truthy (CourseRun.marketing_url course_run)
  && truthy (CourseRun.image course_run)
  && (CourseRun.status course_run =? COURSE_PUBLISHED)%string.

(** The two inner loops of [get_course_run_to_suggest], over the courses of
    one progress dict; they read no reference. *)
Definition suggest_in_course (completed_course_id : string) (not_started_course : Course.t)
  : option (CourseRun.t * Course.t) :=
  for_return (Course.course_runs not_started_course) (fun course_run =>
    if valid_course_run course_run
       && negb (CourseRun.key course_run =? completed_course_id)%string
    then Some (course_run, not_started_course)
    else None).

Definition suggest_in_courses (completed_course_id : string) (not_started : list Course.t)
  : option (CourseRun.t * Course.t) :=
  for_return not_started (suggest_in_course completed_course_id).

(** The body of the outer loop of [get_course_run_to_suggest]. *)
Definition suggest_in_program (completed_course_id : string) (program : loc)
  : M (option (list pyobj)) :=
  d ← read_progress program;
  match suggest_in_courses completed_course_id (ProgramProgress.not_started d) with
  | Some (course_run, not_started_course) =>
      mret (Some [PyProgressRef program; PyCourseRun course_run; PyCourse not_started_course])
  | None => mret None
  end.

(** [get_course_run_to_suggest]: a tuple of three on a match, the tuple
    [(None, None)] otherwise. *)
Definition get_course_run_to_suggest (programs_progress : list loc)
    (completed_course_id : string) : M (list pyobj) :=
  found ← for_return_M programs_progress (suggest_in_program completed_course_id);
  match found with
  | Some t => mret t
  | None => mret [PyNone; PyNone]
  end.

(** ** [urllib.parse.urljoin] *)

(** The command builds its links with [urljoin] of the Python standard
    library.  This module follows the text of [urllib/parse.py] (CPython 3.8)
    for [str] arguments: [urlsplit], [urlparse], [urlunparse] and [urljoin],
    without the parse cache and without the check of non-ASCII host names. *)
Module urllib_parse.

Definition uses_relative : list string :=
  [""; "ftp"; "http"; "gopher"; "nntp"; "imap"; "wais"; "file"; "https"; "shttp";
   "mms"; "prospero"; "rtsp"; "rtspu"; "sftp"; "svn"; "svn+ssh"; "ws"; "wss"].

Definition uses_netloc : list string :=
  [""; "ftp"; "http"; "gopher"; "nntp"; "telnet"; "imap"; "wais"; "file"; "mms";
   "https"; "shttp"; "snews"; "prospero"; "rtsp"; "rtspu"; "rsync"; "svn";
   "svn+ssh"; "sftp"; "nfs"; "git"; "git+ssh"; "ws"; "wss"].

Definition uses_params : list string :=
  [""; "ftp"; "hdl"; "prospero"; "http"; "imap"; "https"; "shttp"; "rtsp"; "rtspu";
   "sip"; "sips"; "mms"; "sftp"; "tel"].

Definition scheme_chars : string :=
  "abcdefghijklmnopqrstuvwxyzABCDEFGHIJKLMNOPQRSTUVWXYZ0123456789+-.".

(** [s in l] for a list of strings, [c in s] for a character. *)
Definition str_in (s : string) (l : list string) : bool := existsb (String.eqb s) l.
Definition char_in (c : ascii) (s : string) : bool :=
  existsb (Ascii.eqb c) (list_ascii_of_string s).

(** [s.find(c)]: the index of the first [c]. *)
Fixpoint find (c : ascii) (s : string) : option nat :=
  match s with
  | EmptyString => None
  | String a rest => if Ascii.eqb a c then Some O else S <$> find c rest
  end.

(** [s.rfind(c)]: the index of the last [c]. *)
Fixpoint rfind (c : ascii) (s : string) : option nat :=
  match s with
  | EmptyString => None
  | String a rest =>
      match rfind c rest with
      | Some i => Some (S i)
      | None => if Ascii.eqb a c then Some O else None
      end
  end.

(** [s[:i]] and [s[i:]]. *)
Fixpoint str_take (i : nat) (s : string) : string :=
  match i, s with
  | S j, String a rest => String a (str_take j rest)
  | _, _ => EmptyString
  end.

Fixpoint str_drop (i : nat) (s : string) : string :=
  match i, s with
  | S j, String _ rest => str_drop j rest
  | _, _ => s
  end.

(** [s.split(c, 1)] when [c in s]. *)
Definition split_once (c : ascii) (s : string) : option (string * string) :=
  i ← find c s; Some (str_take i s, str_drop (S i) s).

(** [s.split(c)]. *)
Fixpoint split (c : ascii) (s : string) : list string :=
  match s with
  | EmptyString => [EmptyString]
  | String a rest =>
      if Ascii.eqb a c then EmptyString :: split c rest
      else match split c rest with
           | [] => [String a EmptyString]
           | w :: ws => String a w :: ws
           end
  end.

(** [s.lower()] on ASCII. *)
Definition lower_char (c : ascii) : ascii :=
  let n := nat_of_ascii c in
  if ((65 <=? n) && (n <=? 90))%nat then ascii_of_nat (n + 32) else c.

Fixpoint lower (s : string) : string :=
  match s with
  | EmptyString => EmptyString
  | String a rest => String (lower_char a) (lower rest)
  end.

(** [_splitnetloc(url, 2)]: the host part runs from index 2 to the first of
    [/], [?], [#]. *)
Fixpoint until_delim (s : string) : string * string :=
  match s with
  | EmptyString => (EmptyString, EmptyString)
  | String a rest =>
      if char_in a "/?#" then (EmptyString, s)
      else let '(h, t) := until_delim rest in (String a h, t)
  end.

Definition _splitnetloc (url : string) : string * string := until_delim (str_drop 2 url).

Record SplitResult : Type := mkSplit {
  s_scheme : string; s_netloc : string; s_path : string;
  s_query : string; s_fragment : string
}.

Definition urlsplit (url scheme : string) : outcome SplitResult :=
  let '(scheme, url) :=
    match find ":" url with
    | Some (S j) =>
        let i := S j in
        let rest := str_drop (S i) url in
        if (str_take i url =? "http")%string then ("http", rest)
        else if forallb (fun c => char_in c scheme_chars) (list_ascii_of_string (str_take i url))
        then
          (* not a port number *)
          if negb (truthy rest)
             || existsb (fun c => negb (char_in c "0123456789")) (list_ascii_of_string rest)
          then (lower (str_take i url), rest)
          else (scheme, url)
        else (scheme, url)
    | _ => (scheme, url)
    end in
  let '(netloc, url) :=
    if (str_take 2 url =? "//")%string then _splitnetloc url else ("", url) in
  if (char_in "[" netloc && negb (char_in "]" netloc))
     || (char_in "]" netloc && negb (char_in "[" netloc))
  then Raise ValueError
  else
    let '(url, fragment) :=
      match split_once "#" url with Some (u, f) => (u, f) | None => (url, "") end in
    let '(url, query) :=
      match split_once "?" url with Some (u, q) => (u, q) | None => (url, "") end in
    Ok (mkSplit scheme netloc url query fragment).

Definition _splitparams (url : string) : string * string :=
  match rfind "/" url with
  | Some r =>
      match find ";" (str_drop r url) with
      | Some k => (str_take (r + k) url, str_drop (S (r + k)) url)
      | None => (url, "")
      end
  | None =>
      (* [i = url.find(';')]; the caller has checked that [';' in url] *)
      match find ";" url with
      | Some i => (str_take i url, str_drop (S i) url)
      | None => (url, "")
      end
  end.

Record ParseResult : Type := mkParse {
  scheme : string; netloc : string; path : string; params : string;
  query : string; fragment : string
}.

Definition urlparse (url scheme : string) : outcome ParseResult :=
  match urlsplit url scheme with
  | Raise e => Raise e
  | Ok r =>
      let '(url, params) :=
        if str_in (s_scheme r) uses_params && char_in ";" (s_path r)
        then _splitparams (s_path r) else (s_path r, "") in
      Ok (mkParse (s_scheme r) (s_netloc r) url params (s_query r) (s_fragment r))
  end.

Definition urlunsplit (scheme netloc url query fragment : string) : string :=
  let url :=
    if truthy netloc
       || (truthy scheme && str_in scheme uses_netloc && negb (str_take 2 url =? "//")%string)
    then
      let url :=
        if truthy url && negb (str_take 1 url =? "/")%string then "/" +:+ url else url in
      "//" +:+ netloc +:+ url
    else url in
  let url := if truthy scheme then scheme +:+ ":" +:+ url else url in
  let url := if truthy query then url +:+ "?" +:+ query else url in
  let url := if truthy fragment then url +:+ "#" +:+ fragment else url in
  url.

Definition urlunparse (r : ParseResult) : string :=
  let url := if truthy (params r) then path r +:+ ";" +:+ params r else path r in
  urlunsplit (scheme r) (netloc r) url (query r) (fragment r).

(** [segments[1:-1] = filter(None, segments[1:-1])] *)
Definition filter_inner (segments : list string) : list string :=
  match segments with
  | [] => []
  | first :: rest =>
      match rest with
      | [] => [first]
      | _ :: _ =>
          first :: List.filter truthy (removelast rest) ++ [List.last rest EmptyString]
      end
  end.

(** The loop over the segments that resolves [.] and [..]. *)
Definition resolve (segments : list string) : list string :=
  foldl (fun resolved_path seg =>
           if (seg =? "..")%string then removelast resolved_path
           else if (seg =? ".")%string then resolved_path
           else resolved_path ++ [seg]) [] segments.

Definition urljoin_str (base url : string) : outcome string :=
  match urlparse base "" with
  | Raise e => Raise e
  | Ok b =>
      match urlparse url (scheme b) with
      | Raise e => Raise e
      | Ok u =>
          if negb (scheme u =? scheme b)%string || negb (str_in (scheme u) uses_relative)
          then Ok url
          else if str_in (scheme u) uses_netloc && truthy (netloc u)
          then Ok (urlunparse u)
          else
            let netloc' := if str_in (scheme u) uses_netloc then netloc b else netloc u in
            if negb (truthy (path u)) && negb (truthy (params u))
            then
              Ok (urlunparse
                    (mkParse (scheme u) netloc' (path b) (params b)
                             (if truthy (query u) then query u else query b)
                             (fragment u)))
            else
              let base_parts := split "/" (path b) in
              let base_parts :=
                if negb (List.last base_parts EmptyString =? "")%string
                then removelast base_parts else base_parts in
              let segments :=
                if (str_take 1 (path u) =? "/")%string then split "/" (path u)
                else filter_inner (base_parts ++ split "/" (path u)) in
              let resolved_path := resolve segments in
              let resolved_path :=
                if str_in (List.last segments EmptyString) ["."; ".."]
                then resolved_path ++ [EmptyString] else resolved_path in
              let joined := String.concat "/" resolved_path in
              Ok (urlunparse
                    (mkParse (scheme u) netloc'
                             (if truthy joined then joined else "/")
                             (params u) (query u) (fragment u)))
      end
  end.

(** [urljoin(base, url)]; either argument may be [None]. *)
Definition urljoin (base url : option string) : outcome (option string) :=
  if negb (truthy base) then Ok url
  else if negb (truthy url) then Ok base
  else
    match base, url with
    | Some b, Some u =>
        match urljoin_str b u with Ok r => Ok (Some r) | Raise e => Raise e end
    | _, _ => Ok url
    end.

End urllib_parse.

(** ** Ranking, lookups and the batch loop *)

(** [sort_revenue_order.get(type, 7)] over the dict literal of
    [sort_programs]. *)
Definition sort_revenue_order : gmap string Z :=
  <["MicroMasters" := 1]> (
  <["Professional Program" := 2]> (
  <["Professional Certificate" := 3]> (
  <["XSeries" := 4]> (
  <["Masters" := 5]> (
  <["MicroBachelors" := 6]> ∅))))).

Definition revenue_rank (type : string) : Z :=
  default 7 (sort_revenue_order !! type).

(** [program['sort_revenue_order'] = v] on the dict [d]. *)
Definition set_sort_revenue_order (d : Program.t) (v : Z) : Program.t :=
  Program.mk (Program.uuid d) (Program.type d) (Program.title d) (Program.courses d)
             (Some v).

(** [itemgetter('sort_revenue_order')] applied to a program dict. *)
Definition itemgetter_sort_revenue_order (program : loc) : M Z :=
  d ← read_program program;
  match Program.sort_revenue_order d with
  | Some k => mret k
  | None => raise KeyError
  end.

(** The body of the loop of [sort_programs]. *)
Definition write_rank (program : loc) : M unit :=
  d ← read_program program;
  write_program program (set_sort_revenue_order d (revenue_rank (Program.type d))).

(** The key [sorted] computes for an element, kept with the element. *)
Definition keyed (program : loc) : M (Z * loc) :=
  k ← itemgetter_sort_revenue_order program; mret (k, program).

(** [sort_programs]: the loop writes the rank into every dict of the list;
    [sorted] then computes the key of every element and arranges the
    references. *)
Definition sort_programs (programs : list loc) : M (list loc) :=
  _ ← for_each_M programs (fun _ program => write_rank program) tt;
  keys ← mapM keyed programs;
  mret (map snd (sort_by_key keys)).

(** The two loops of [get_course_run], over the courses of a program dict. *)
Definition find_course_run (courses : list Course.t) (course_run_id : string)
  : option CourseRun.t :=
  for_return courses (fun course =>
    for_return (Course.course_runs course) (fun course_run =>
      if (CourseRun.key course_run =? course_run_id)%string then Some course_run else None)).

(** [get_course_run]: [program] is what [get_program] returned, a reference
    or [None]; subscripting [None] raises [TypeError].  Falling off the
    loops returns [None]. *)
Definition get_course_run (program : option loc) (course_run_id : string)
  : M (option CourseRun.t) :=
  match program with
  | None => raise TypeError
  | Some l =>
      d ← read_program l;
      mret (find_course_run (Program.courses d) course_run_id)
  end.

(** [o['uuid']] for an element of the selection tuple. *)
Definition getitem_uuid (o : pyobj) : M string :=
  match o with
  | PyProgressRef l => d ← read_progress l; mret (ProgramProgress.uuid d)
  | PyNone => raise TypeError
  | PyCourseRun _ | PyCourse _ => raise KeyError
  end.

(** [o['key']]: courses and course runs both have the key. *)
Definition getitem_key (o : pyobj) : M string :=
  match o with
  | PyCourseRun r => mret (CourseRun.key r)
  | PyCourse c => mret (Course.key c)
  | PyNone => raise TypeError
  | PyProgressRef _ => raise KeyError
  end.

(** [o[k]] for a key [k] that only course runs have. *)
Definition getitem_course_run {A : Type} (o : pyobj) (k : CourseRun.t -> A) : M A :=
  match o with
  | PyCourseRun r => mret (k r)
  | PyNone => raise TypeError
  | PyCourse _ | PyProgressRef _ => raise KeyError
  end.

(** [get_program]: the first program dict with the uuid of the progress
    dict; [None] when the loop ends. *)
Definition get_program (programs : list loc) (program_progress : pyobj) : M (option loc) :=
  for_return_M programs (fun program =>
    d ← read_program program;
    u ← getitem_uuid program_progress;
    if (Program.uuid d =? u)%string then mret (Some program) else mret None).

(** [a, b, c = t] *)
Definition unpack3 (t : list pyobj) : M (pyobj * pyobj * pyobj) :=
  match t with
  | [a; b; c] => mret (a, b, c)
  | _ => raise ValueError
  end.

Module PersistentCourseGrade.
Record t : Type := mk {
  user_id : Z;
  course_id : string;
  (** the day of [passed_timestamp]; [None] while the course is not passed *)
  passed_date : option Z
}.
End PersistentCourseGrade.

(** The collaborators of the command and the settings it reads. *)
Record Env : Type := mkEnv {
  today : Z;                                           (* timezone.now().date() *)
  grades_table : list PersistentCourseGrade.t;         (* PersistentCourseGrade.objects *)
  users_table : list User.t;                           (* User.objects *)
  catalog_programs : string -> list Program.t;         (* get_programs(course=...) *)
  meter_progress : User.t -> list Program.t -> list ProgramProgress.t;
                                                       (* ProgramProgressMeter(...).progress *)
  get_enterprise_learner_data_from_db : User.t -> list EnterpriseLearner.t;
  ENTERPRISE_LEARNER_PORTAL_BASE_URL : string;
  MKTG_URLS_ROOT : option string                       (* settings.MKTG_URLS.get('ROOT') *)
}.

(** [d[k].append(u)] on a [defaultdict(list)]; the dict keeps its keys in the
    order of their first insertion. *)
Fixpoint defaultdict_append {V : Type} (k : string) (u : V) (d : list (string * list V))
  : list (string * list V) :=
  match d with
  | [] => [(k, [u])]
  | (k', us) :: rest =>
      if (k' =? k)%string then (k', us ++ [u]) :: rest
      else (k', us) :: defaultdict_append k u rest
  end.

(** [values_list(...).distinct()] *)
Fixpoint distinct (l : list Z) : list Z :=
  match l with
  | [] => []
  | x :: rest => x :: List.filter (fun y => negb (y =? x)%Z) (distinct rest)
  end.

Section Command.

Context (env : Env).

Definition get_passed_course_to_users_maps : M (list (string * list User.t)) :=
  let yesterday := today env - 1 in
  let passed_grades :=
    List.filter (fun g => match PersistentCourseGrade.passed_date g with
                          | Some d => (d =? yesterday)%Z
                          | None => false
                          end) (grades_table env) in
  let passing_user_ids := distinct (map PersistentCourseGrade.user_id passed_grades) in
  let passing_users :=
    List.filter (fun u => existsb (Z.eqb (User.id u)) passing_user_ids) (users_table env) in
  let user_id_to_user_map : gmap Z User.t :=
    foldl (fun m user => <[User.id user := user]> m) ∅ passing_users in
  passed_course_to_users_maps ← for_each_M passed_grades (fun d passing_grade =>
      match user_id_to_user_map !! PersistentCourseGrade.user_id passing_grade with
      | Some user =>
          mret (defaultdict_append (PersistentCourseGrade.course_id passing_grade) user d)
      | None => raise KeyError
      end) [];
  _ ← LOGGER_info (LogPassingGrades (length passed_grades) yesterday
                     (length passing_user_ids) (length passed_course_to_users_maps));
  mret passed_course_to_users_maps.

(** [get_programs(course=...)]: the catalog hands over fresh dicts. *)
Definition get_programs (course : string) : M (list loc) :=
  new_programs (catalog_programs env course).

(** [ProgramProgressMeter(site, user, ...).progress(programs=..., count_only=False)]:
    the meter reads the program dicts and hands over fresh progress dicts. *)
Definition meter_progress_call (user : User.t) (programs : list loc) : M (list loc) :=
  ds ← mapM read_program programs;
  new_progress (meter_progress env user ds).

Definition emit_event (user : User.t) (program : option loc)
    (suggested_course_run suggested_course : pyobj)
    (completed_course_run : option CourseRun.t) : M unit :=
  let learner_data := get_enterprise_learner_data_from_db env user in
  let enterprise_customer :=
    if truthy learner_data then EnterpriseLearner.enterprise_customer <$> head learner_data
    else None in
  let marketing : M (option string) :=
    url ← getitem_course_run suggested_course_run CourseRun.marketing_url;
    match urllib_parse.urljoin (MKTG_URLS_ROOT env) url with
    | Ok r => mret r
    | Raise e => raise e
    end in
  recommended_course_url ←
    match enterprise_customer with
    | Some ec =>
        if EnterpriseCustomer.enable_learner_portal ec then
          (* If user is an enterprise learner then we want to redirect him to
             B2B course landing on learner portal. *)
          k ← getitem_key suggested_course;
          match urllib_parse.urljoin
                  (Some (ENTERPRISE_LEARNER_PORTAL_BASE_URL env))
                  (Some (String.concat "/" [EnterpriseCustomer.slug ec; "course"; k])) with
          | Ok r => mret r
          | Raise e => raise e
          end
        else marketing
    | None => marketing
    end;
  completed ←
    match completed_course_run with
    | Some r => mret r
    | None => raise TypeError
    end;
  d ← match program with
      | Some l => read_program l
      | None => raise TypeError
      end;
  course_two_name ← getitem_course_run suggested_course_run CourseRun.title;
  course_two_short_description ←
    getitem_course_run suggested_course_run CourseRun.short_description;
  image ← getitem_course_run suggested_course_run CourseRun.image;
  course_two_image_link ←
    match image with
    | Some i => mret (Image.src i)
    | None => raise AttributeError
    end;
  _ ← segment_track (User.id user) "edx.bi.program.course-enrollment.nudge"
        (Event.mk_properties (CourseRun.title completed) (Program.type d) (Program.title d)
           course_two_name course_two_short_description recommended_course_url
           course_two_image_link);
  suggested_key ← getitem_course_run suggested_course_run CourseRun.key;
  LOGGER_info
    (LogEventFired
       (CourseRun.key completed) (Program.uuid d) suggested_key (User.username user)).

(** The body of [for user in users] in [handle]; [email_sent_records] is the
    list the loop appends to. *)
Definition handle_user (should_commit : bool) (course_linked_programs : list loc)
    (completed_course_id : string) (email_sent_records : list string) (user : User.t)
  : M (list string) :=
  programs_progress ← meter_progress_call user course_linked_programs;
  t ← get_course_run_to_suggest programs_progress completed_course_id;
  '(suggested_program_progress, suggested_course_run, suggested_course) ← unpack3 t;
  if truthy suggested_course_run && truthy suggested_course then
    suggested_program ← get_program course_linked_programs suggested_program_progress;
    completed_course_run ← get_course_run suggested_program completed_course_id;
    _ ← (if should_commit
         then emit_event user suggested_program suggested_course_run suggested_course
                completed_course_run
         else mret tt);
    k ← getitem_key suggested_course_run;
    mret (email_sent_records ++
            ["User: " +:+ User.username user +:+ ", Completed Course: " +:+
             completed_course_id +:+ ", Suggested Course: " +:+ k])
  else mret email_sent_records.

(** The body of [for completed_course_id, users in course_to_users_maps.items()]. *)
Definition handle_course (should_commit : bool) (email_sent_records : list string)
    (item : string * list User.t) : M (list string) :=
  let '(completed_course_id, users) := item in
  course_linked_programs ← get_programs completed_course_id;
  course_linked_programs ← sort_programs course_linked_programs;
  if truthy course_linked_programs then
    for_each_M users (handle_user should_commit course_linked_programs completed_course_id)
      email_sent_records
  else mret email_sent_records.

(** [handle]: [no_commit] is [options['no_commit']]. *)
Definition handle (no_commit : bool) : M unit :=
  let should_commit := negb no_commit in
  course_to_users_maps ← get_passed_course_to_users_maps;
  email_sent_records ← for_each_M course_to_users_maps (handle_course should_commit) [];
  LOGGER_info (LogEmailsSent (length email_sent_records) email_sent_records).

End Command.

(** The world in which a run of the command starts. *)
Definition initial_world : World := mkWorld [] [] [] [].

(** ** Notions used to state the properties *)

(** The test of the innermost loop of [get_course_run_to_suggest]. *)
Definition eligible (completed_course_id : string) (course_run : CourseRun.t) : bool :=
  valid_course_run course_run
  && negb (CourseRun.key course_run =? completed_course_id)%string.

(** No course run of the courses is eligible. *)
Definition none_eligible (completed_course_id : string) (courses : list Course.t) : Prop :=
  Forall (fun c => Forall (fun r => eligible completed_course_id r = false)
                     (Course.course_runs c)) courses.

(** [c], with its run [cr], is the first eligible pair of the courses: no run
    of an earlier course is eligible, and no earlier run of [c] is. *)
Definition first_eligible (completed_course_id : string) (courses : list Course.t)
    (cr : CourseRun.t) (c : Course.t) : Prop :=
  exists cs1 cs2 rs1 rs2,
    courses = cs1 ++ c :: cs2 /\
    none_eligible completed_course_id cs1 /\
    Course.course_runs c = rs1 ++ cr :: rs2 /\
    Forall (fun r => eligible completed_course_id r = false) rs1 /\
    eligible completed_course_id cr = true.

(** The progress dict behind [l] offers nothing to suggest. *)
Definition no_suggestion_in (w : World) (completed_course_id : string) (l : loc) : Prop :=
  exists d, progress w !! l = Some d /\
            none_eligible completed_course_id (ProgramProgress.not_started d).

(** ** The scenario of the specification

    Completed course run [CS101]; two programs, a Professional Certificate
    whose only course not started has an unmarketable run, and an XSeries
    whose course not started has the run [CS202], which is enrollable,
    marketable, published, and has an image and a marketing URL. *)
Module Scenario.

Definition image_cs202 : Image.t := Image.mk (Some "https://img.example.org/cs202.png").

Definition run_cs101 : CourseRun.t :=
  CourseRun.mk "CS101" "Programming 1" (Some "First steps") true true
    (Some "https://www.edx.org/course/cs101") (Some image_cs202) "published".

Definition run_cs150 : CourseRun.t :=
  CourseRun.mk "CS150" "Programming 1b" None true false
    (Some "https://www.edx.org/course/cs150") (Some image_cs202) "published".

Definition run_cs202 : CourseRun.t :=
  CourseRun.mk "CS202" "Programming 2" (Some "Next steps") true true
    (Some "https://www.edx.org/course/cs202") (Some image_cs202) "published".

Definition course_101 : Course.t := Course.mk "C101" [run_cs101].
Definition course_150 : Course.t := Course.mk "C150" [run_cs150].
Definition course_202 : Course.t := Course.mk "C202" [run_cs202].

Definition program_pc : Program.t :=
  Program.mk "uuid-pc" "Professional Certificate" "Certificate in Programming"
    [course_101; course_150] None.

Definition program_xs : Program.t :=
  Program.mk "uuid-xs" "XSeries" "Programming XSeries" [course_101; course_202] None.

Definition progress_pc : ProgramProgress.t :=
  ProgramProgress.mk "uuid-pc" [course_101] [] [course_150].

Definition progress_xs : ProgramProgress.t :=
  ProgramProgress.mk "uuid-xs" [course_101] [] [course_202].

(** The same learner, had they already started the course of [CS202]. *)
Definition progress_xs_started : ProgramProgress.t :=
  ProgramProgress.mk "uuid-xs" [course_101] [course_202] [].

Definition world_progress : World := mkWorld [] [progress_pc; progress_xs] [] [].
Definition world_started : World := mkWorld [] [progress_pc; progress_xs_started] [] [].

End Scenario.

(** Two worlds give [get_course_run_to_suggest] the same result as soon as
    the dicts behind the references have the same courses not started. *)
Definition same_not_started (w1 w2 : World) (l : loc) : Prop :=
  match progress w1 !! l, progress w2 !! l with
  | Some d1, Some d2 => ProgramProgress.not_started d1 = ProgramProgress.not_started d2
  | None, None => True
  | _, _ => False
  end.

(** The rank of the program dict behind a reference, by the table of
    [sort_programs]. *)
Definition program_rank (w : World) (l : loc) : Z :=
  match programs w !! l with
  | Some d => revenue_rank (Program.type d)
  | None => 7
  end.

(** The program types the table of [sort_programs] lists. *)
Definition known_types : list string :=
  ["MicroMasters"; "Professional Program"; "Professional Certificate"; "XSeries";
   "Masters"; "MicroBachelors"].

(** The dict [d] once [sort_programs] has written the rank into it. *)
Definition ranked (d : Program.t) : Program.t :=
  set_sort_revenue_order d (revenue_rank (Program.type d)).

(** The order [sorted] arranges keyed elements by. *)
Definition key_le {A : Type} (x y : Z * A) : Prop := (x.1 <= y.1)%Z.

(** A world that holds the two program dicts of the scenario. *)
Definition world_catalog : World :=
  mkWorld [Scenario.program_xs; Scenario.program_pc] [] [] [].

(** The customer whose portal [emit_event] links to: the customer of the
    first enterprise-learner record of the user, when its portal is enabled. *)
Definition portal_customer (env : Env) (user : User.t) : option EnterpriseCustomer.t :=
  match head (get_enterprise_learner_data_from_db env user) with
  | Some learner =>
      if EnterpriseCustomer.enable_learner_portal (EnterpriseLearner.enterprise_customer learner)
      then Some (EnterpriseLearner.enterprise_customer learner)
      else None
  | None => None
  end.

(** The recommended-course URL as the specification words it: the parts put
    one after the other, portal base, [/], slug, [/course/] and course key
    for a learner of an enterprise customer with the portal enabled,
    marketing root and marketing URL otherwise. *)
Definition spec_recommended_course_url (env : Env) (user : User.t)
    (suggested_course_run : CourseRun.t) (suggested_course : Course.t) : string :=
  match List.find (fun learner => EnterpriseCustomer.enable_learner_portal
                                    (EnterpriseLearner.enterprise_customer learner))
                  (get_enterprise_learner_data_from_db env user) with
  | Some learner =>
      ENTERPRISE_LEARNER_PORTAL_BASE_URL env +:+ "/" +:+
      EnterpriseCustomer.slug (EnterpriseLearner.enterprise_customer learner) +:+
      "/course/" +:+ Course.key suggested_course
  | None =>
      default "" (MKTG_URLS_ROOT env) +:+
      default "" (CourseRun.marketing_url suggested_course_run)
  end.

(** ** Runs of the scenario *)

Module Run.

Definition alice : User.t := User.mk 7 "alice".

(** Yesterday (day 9) [alice] passed [CS101], which is part of the two
    programs of the scenario. *)
Definition grades : list PersistentCourseGrade.t :=
  [PersistentCourseGrade.mk 7 "CS101" (Some 9)].

Definition catalog (course : string) : list Program.t :=
  if (course =? "CS101")%string then [Scenario.program_xs; Scenario.program_pc] else [].

(** The meter answers in the order of the programs it is given. *)
Definition meter (progress_of : string -> ProgramProgress.t) (user : User.t)
    (programs : list Program.t) : list ProgramProgress.t :=
  map (fun d => progress_of (Program.uuid d)) programs.

Definition progress_of (uuid : string) : ProgramProgress.t :=
  if (uuid =? "uuid-pc")%string then Scenario.progress_pc else Scenario.progress_xs.

(** The learner who has started the course of [CS202]: nothing is left to
    suggest. *)
Definition progress_of_started (uuid : string) : ProgramProgress.t :=
  if (uuid =? "uuid-pc")%string then Scenario.progress_pc
  else Scenario.progress_xs_started.

Definition acme : EnterpriseCustomer.t := EnterpriseCustomer.mk "acme" true.

(** A learner outside any enterprise. *)
Definition env : Env :=
  mkEnv 10 grades [alice] catalog (meter progress_of) (fun _ => [])
        "https://enterprise.edx.org" (Some "https://www.edx.org").

(** The same learner as a learner of [acme], whose portal is enabled. *)
Definition env_enterprise : Env :=
  mkEnv 10 grades [alice] catalog (meter progress_of)
        (fun _ => [EnterpriseLearner.mk acme])
        "https://enterprise.edx.org" (Some "https://www.edx.org").

(** The learner for whom nothing is left to suggest. *)
Definition env_nothing : Env :=
  mkEnv 10 grades [alice] catalog (meter progress_of_started) (fun _ => [])
        "https://enterprise.edx.org" (Some "https://www.edx.org").

(** A catalog whose XSeries does not list the run [CS101] among the runs of
    its courses. *)
Definition program_xs_other : Program.t :=
  Program.mk "uuid-xs" "XSeries" "Programming XSeries" [Scenario.course_202] None.

Definition env_absent : Env :=
  mkEnv 10 grades [alice]
        (fun course => if (course =? "CS101")%string then [program_xs_other] else [])
        (meter progress_of) (fun _ => [])
        "https://enterprise.edx.org" (Some "https://www.edx.org").

(** The world once [handle] has fetched and ranked the programs of
    [env_absent]. *)
Definition world_absent : World :=
  mkWorld [set_sort_revenue_order program_xs_other 4] [] [] [].

(** A meter whose progress dicts carry a uuid that none of the programs
    has. *)
Definition progress_foreign : ProgramProgress.t :=
  ProgramProgress.mk "uuid-zz" [Scenario.course_101] [] [Scenario.course_202].

Definition env_foreign : Env :=
  mkEnv 10 grades [alice] catalog (fun _ _ => [progress_foreign]) (fun _ => [])
        "https://enterprise.edx.org" (Some "https://www.edx.org").

(** The world once [handle] has fetched and ranked the two programs of the
    scenario. *)
Definition world_ranked : World :=
  mkWorld [set_sort_revenue_order Scenario.program_xs 4;
           set_sort_revenue_order Scenario.program_pc 3] [] [] [].

(** The grades table with a second passing grade, of a user who has no row
    in the user table. *)
Definition env_no_user : Env :=
  mkEnv 10 (grades ++ [PersistentCourseGrade.mk 8 "CS101" (Some 9)]) [alice] catalog
        (meter progress_of) (fun _ => [])
        "https://enterprise.edx.org" (Some "https://www.edx.org").

Definition bob : User.t := User.mk 8 "bob".

(** Two learners and three grades passed the day before, and an older one. *)
Definition env_two : Env :=
  mkEnv 10 [PersistentCourseGrade.mk 7 "CS101" (Some 9);
            PersistentCourseGrade.mk 8 "CS300" (Some 9);
            PersistentCourseGrade.mk 7 "CS050" (Some 3);
            PersistentCourseGrade.mk 8 "CS101" (Some 9)]
        [alice; bob] catalog (meter progress_of) (fun _ => [])
        "https://enterprise.edx.org" (Some "https://www.edx.org").

(** The learners of [env_two] when the catalog has no program for any
    course. *)
Definition env_no_programs : Env :=
  mkEnv 10 (grades_table env_two) [alice; bob] (fun _ => []) (meter progress_of)
        (fun _ => []) "https://enterprise.edx.org" (Some "https://www.edx.org").

(** As [env_nothing], with a second learner who passed [CS101]. *)
Definition env_nothing_two : Env :=
  mkEnv 10 (grades ++ [PersistentCourseGrade.mk 8 "CS101" (Some 9)]) [alice; bob] catalog
        (meter progress_of_started) (fun _ => [])
        "https://enterprise.edx.org" (Some "https://www.edx.org").

End Run.

(** The record [handle] appends to [email_sent_records] for a match. *)
Definition email_sent_record (user : User.t) (completed_course_id suggested_key : string)
  : string :=
  "User: " +:+ User.username user +:+ ", Completed Course: " +:+
  completed_course_id +:+ ", Suggested Course: " +:+ suggested_key.

(** ** Notions used to compare runs *)

(** The dicts of a world. *)
Definition stores (w : World) : list Program.t * list ProgramProgress.t :=
  (programs w, progress w).

(** The computation leaves a part of the world as it was, however it ends. *)
Definition preserves {X A : Type} (part : World -> X) (m : M A) : Prop :=
  forall w, part (m w).2 = part w.

(** How the computation ends and what it does to the dicts depend on the
    dicts only, not on the sink or the log. *)
Definition store_determined {A : Type} (m : M A) : Prop :=
  forall w1 w2, stores w1 = stores w2 ->
    (m w1).1 = (m w2).1 /\ stores (m w1).2 = stores (m w2).2.

(** [md] follows [mc]: from the same dicts, when [mc] ends normally, [md]
    ends normally with the same result and the same dicts. *)
Definition follows {A : Type} (md mc : M A) : Prop :=
  forall wc wd a wc', stores wc = stores wd -> mc wc = (Ok a, wc') ->
    exists wd', md wd = (Ok a, wd') /\ stores wc' = stores wd'.

(** The program dict behind [r] has another uuid than [uuid]. *)
Definition other_uuid (w : World) (uuid : string) (r : loc) : Prop :=
  exists d, programs w !! r = Some d /\ Program.uuid d <> uuid.

(** ** Notions used for the passing grades *)

(** The rows of [passed_grades]: the grades passed on the day before. *)
Definition passed_yesterday (env : Env) : list PersistentCourseGrade.t :=
  List.filter (fun g => match PersistentCourseGrade.passed_date g with
                        | Some d => (d =? today env - 1)%Z
                        | None => false
                        end) (grades_table env).

(** [d[k]] on a [defaultdict(list)]: the list under [k], empty when [k] is
    not a key. *)
Fixpoint defaultdict_get {V : Type} (k : string) (d : list (string * list V)) : list V :=
  match d with
  | [] => []
  | (k', us) :: rest => if (k' =? k)%string then us else defaultdict_get k rest
  end.

(** The passing grades of a course, in the order of the rows. *)
Definition passed_of (env : Env) (course : string) : list PersistentCourseGrade.t :=
  List.filter (fun g => (PersistentCourseGrade.course_id g =? course)%string)
    (passed_yesterday env).

(** The user table has a row for the user of the grade. *)
Definition has_user (env : Env) (g : PersistentCourseGrade.t) : Prop :=
  exists u, In u (users_table env) /\ User.id u = PersistentCourseGrade.user_id g.

(** [passing_user_ids] and [user_id_to_user_map] of
    [get_passed_course_to_users_maps], and the body of its loop. *)
Definition passing_user_ids (env : Env) : list Z :=
  distinct (map PersistentCourseGrade.user_id (passed_yesterday env)).

Definition user_id_to_user_map (env : Env) : gmap Z User.t :=
  foldl (fun m user => <[User.id user := user]> m) ∅
    (List.filter (fun u => existsb (Z.eqb (User.id u)) (passing_user_ids env))
       (users_table env)).

Definition add_passing_grade (env : Env) (d : list (string * list User.t))
    (passing_grade : PersistentCourseGrade.t) : M (list (string * list User.t)) :=
  match user_id_to_user_map env !! PersistentCourseGrade.user_id passing_grade with
  | Some user =>
      mret (defaultdict_append (PersistentCourseGrade.course_id passing_grade) user d)
  | None => raise KeyError
  end.

(** ** Notions used for the event *)

(** The name of the event [emit_event] sends. *)
Definition nudge_event : string := "edx.bi.program.course-enrollment.nudge".

(** The link [emit_event] computes for a course run and a course. *)
Definition recommended_course_url (env : Env) (user : User.t)
    (suggested_course_run : CourseRun.t) (suggested_course : Course.t)
  : outcome (option string) :=
  match portal_customer env user with
  | Some ec =>
      urllib_parse.urljoin (Some (ENTERPRISE_LEARNER_PORTAL_BASE_URL env))
        (Some (String.concat "/" [EnterpriseCustomer.slug ec; "course";
                                  Course.key suggested_course]))
  | None =>
      urllib_parse.urljoin (MKTG_URLS_ROOT env)
        (CourseRun.marketing_url suggested_course_run)
  end.

(** The world once one event and one log line are added. *)
Definition after_event (w : World) (e : Event.t) (r : log_record) : World :=
  mkWorld (programs w) (progress w) (segment_calls w ++ [e]) (log w ++ [r]).

(** The event and the log line of [emit_event] for a completed course run
    [r], a program dict [d], a suggested course run [cr] with image [i], and
    the link [url]. *)
Definition nudge_of (user : User.t) (r : CourseRun.t) (d : Program.t) (cr : CourseRun.t)
    (i : Image.t) (url : option string) : Event.t :=
  Event.mk (User.id user) nudge_event
    (Event.mk_properties (CourseRun.title r) (Program.type d) (Program.title d)
       (CourseRun.title cr) (CourseRun.short_description cr) url (Image.src i)).

Definition fired_of (user : User.t) (r : CourseRun.t) (d : Program.t) (cr : CourseRun.t)
  : log_record :=
  LogEventFired (CourseRun.key r) (Program.uuid d) (CourseRun.key cr) (User.username user).

(** ** Notions used to count events and records *)

(** From [records] and [w] to [records'] and [w']: records were appended,
    nudge events were sent, and as many of the ones as of the others. *)
Definition grown (records : list string) (w : World) (records' : list string)
    (w' : World) : Prop :=
  exists rs evs,
    records' = records ++ rs /\
    segment_calls w' = segment_calls w ++ evs /\
    length rs = length evs /\
    Forall (fun e => Event.name e = nudge_event) evs.

(** The meter answers with one progress dict for each program dict it is
    given, in the same order, under the uuid of the program. *)
Definition meter_in_order (env : Env) (user : User.t) (ds : list Program.t) : Prop :=
  Forall2 (fun d pp => ProgramProgress.uuid pp = Program.uuid d)
    ds (meter_progress env user ds).

(** [p], holding [d], is the first program dict of the list with the uuid:
    the dicts before it in the list have another one. *)
Definition first_with_uuid (w : World) (uuid : string) (refs : list loc) (p : loc)
    (d : Program.t) : Prop :=
  exists rs1 rs2,
    refs = rs1 ++ p :: rs2 /\ Forall (other_uuid w uuid) rs1 /\
    programs w !! p = Some d /\ Program.uuid d = uuid.

(** [r] is the first course run of the program, in the order of its courses
    and of their runs, with the key. *)
Definition first_run_with_key (d : Program.t) (id : string) (r : CourseRun.t) : Prop :=
  exists rs1 rs2,
    concat (map Course.course_runs (Program.courses d)) = rs1 ++ r :: rs2 /\
    Forall (fun x => CourseRun.key x <> id) rs1 /\
    CourseRun.key r = id.

(** ** The records of a run with [--no-commit], without the stores

    What the specification says of such a run, as functions of the
    collaborators alone: the linked programs of a course are ranked, the meter
    is asked for the progress of a learner in them, the first eligible course
    run is selected, and the match is recorded; nothing is sent.  The
    exceptions are those of the code. *)

(** The program dicts of a course in the order of their rank, the rank
    written in them. *)
Definition ranked_programs (env : Env) (course : string) : list Program.t :=
  map snd (sort_by_key
             (map (fun d => (revenue_rank (Program.type d), ranked d))
                  (catalog_programs env course))).

(** The first eligible course run over the progress dicts of a learner, with
    its progress dict and its course. *)
Definition first_match (completed_course_id : string) (pps : list ProgramProgress.t)
  : option (ProgramProgress.t * CourseRun.t * Course.t) :=
  for_return pps (fun pp =>
    match suggest_in_courses completed_course_id (ProgramProgress.not_started pp) with
    | Some (cr, c) => Some (pp, cr, c)
    | None => None
    end).

(** The record of a learner of a course whose ranked programs are [ds]. *)
Definition learner_record (env : Env) (completed_course_id : string)
    (ds : list Program.t) (user : User.t) : outcome string :=
  match first_match completed_course_id (meter_progress env user ds) with
  | Some (pp, cr, _) =>
      if existsb (fun d => (Program.uuid d =? ProgramProgress.uuid pp)%string) ds
      then Ok (email_sent_record user completed_course_id (CourseRun.key cr))
      else Raise TypeError
  | None => Raise ValueError
  end.

Fixpoint learners_records (env : Env) (completed_course_id : string)
    (ds : list Program.t) (users : list User.t) (records : list string)
  : outcome (list string) :=
  match users with
  | [] => Ok records
  | user :: rest =>
      match learner_record env completed_course_id ds user with
      | Ok r => learners_records env completed_course_id ds rest (records ++ [r])
      | Raise e => Raise e
      end
  end.

(** A course without linked programs is passed over. *)
Definition course_records (env : Env) (records : list string)
    (item : string * list User.t) : outcome (list string) :=
  if truthy (ranked_programs env item.1)
  then learners_records env item.1 (ranked_programs env item.1) item.2 records
  else Ok records.

Fixpoint no_commit_records (env : Env) (maps : list (string * list User.t))
    (records : list string) : outcome (list string) :=
  match maps with
  | [] => Ok records
  | item :: rest =>
      match course_records env records item with
      | Ok records' => no_commit_records env rest records'
      | Raise e => Raise e
      end
  end.

(** Two keyed elements with the same key, and payloads related by [R]. *)
Definition keyed_rel {A B : Type} (R : A -> B -> Prop) (x : Z * A) (y : Z * B) : Prop :=
  x.1 = y.1 /\ R x.2 y.2.

(** * Properties *)

(** ** Running computations of [M] *)

Section Monad.

Context {A B : Type}.

Lemma bind_ok (m : M A) (f : A -> M B) w a w' :
  m w = (Ok a, w') -> (m ≫= f) w = f a w'.
Proof. intros Hm. unfold mbind, M_bind. by rewrite Hm. Qed.

Lemma bind_raise (m : M A) (f : A -> M B) w e w' :
  m w = (Raise e, w') -> (m ≫= f) w = (Raise e, w').
Proof. intros Hm. unfold mbind, M_bind. by rewrite Hm. Qed.

Lemma bind_ok_inv (m : M A) (f : A -> M B) w b w'' :
  (m ≫= f) w = (Ok b, w'') ->
  exists a w', m w = (Ok a, w') /\ f a w' = (Ok b, w'').
Proof.
  unfold mbind, M_bind. destruct (m w) as [[a|e] w'] eqn:Hm; intros H.
  - by exists a, w'.
  - discriminate.
Qed.

End Monad.

(** ** Loops that return *)

Section ForReturn.

Context {A R : Type} (body : A -> option R).

Lemma for_return_None xs :
  for_return xs body = None <-> Forall (fun x => body x = None) xs.
Proof.
  induction xs as [|x xs IH]; simpl.
  - split; [constructor | done].
  - destruct (body x) eqn:Hx.
    + split; [done | intros H; inversion H; congruence].
    + rewrite IH. split; [by constructor | by inversion 1].
Qed.

Lemma for_return_Some xs r :
  for_return xs body = Some r <->
  exists xs1 x xs2,
    xs = xs1 ++ x :: xs2 /\ Forall (fun y => body y = None) xs1 /\ body x = Some r.
Proof.
  induction xs as [|x xs IH]; simpl.
  - split; [done | intros (xs1 & y & xs2 & H & _); by destruct xs1].
  - destruct (body x) eqn:Hx.
    + split.
      * intros [= ->]. by exists [], x, xs.
      * intros (xs1 & y & xs2 & Hxs & Hnone & Hy).
        destruct xs1 as [|z xs1]; simpl in Hxs; injection Hxs as -> ->.
        -- congruence.
        -- inversion Hnone; congruence.
    + rewrite IH. split.
      * intros (xs1 & y & xs2 & -> & Hnone & Hy).
        exists (x :: xs1), y, xs2. split_and!; [done | by constructor | done].
      * intros (xs1 & y & xs2 & Hxs & Hnone & Hy).
        destruct xs1 as [|z xs1]; simpl in Hxs; injection Hxs as -> ->.
        -- congruence.
        -- inversion Hnone; subst. by exists xs1, y, xs2.
Qed.

End ForReturn.

(** ** Selection of the course run to suggest *)

Lemma suggest_in_course_None cid c :
  suggest_in_course cid c = None <->
  Forall (fun r => eligible cid r = false) (Course.course_runs c).
Proof.
  unfold suggest_in_course. rewrite for_return_None.
  apply Forall_iff. intros r. fold (eligible cid r).
  by destruct (eligible cid r).
Qed.

Lemma suggest_in_course_Some cid c cr c' :
  suggest_in_course cid c = Some (cr, c') <->
  c' = c /\ exists rs1 rs2,
    Course.course_runs c = rs1 ++ cr :: rs2 /\
    Forall (fun r => eligible cid r = false) rs1 /\
    eligible cid cr = true.
Proof.
  unfold suggest_in_course. rewrite for_return_Some. split.
  - intros (rs1 & r & rs2 & Hruns & Hnone & Hr).
    fold (eligible cid r) in Hr. destruct (eligible cid r) eqn:Her; [|done].
    injection Hr as -> ->. split; [done|]. exists rs1, rs2. repeat split; [done| |done].
    eapply Forall_impl; [exact Hnone|]. intros x. simpl. fold (eligible cid x).
    by destruct (eligible cid x).
  - intros (-> & rs1 & rs2 & Hruns & Hnone & Hcr).
    exists rs1, cr, rs2. repeat split; [done| |].
    + eapply Forall_impl; [exact Hnone|]. intros x Hx. simpl. fold (eligible cid x).
      by rewrite Hx.
    + fold (eligible cid cr). by rewrite Hcr.
Qed.

Lemma suggest_in_courses_None cid courses :
  suggest_in_courses cid courses = None <-> none_eligible cid courses.
Proof.
  unfold suggest_in_courses, none_eligible. rewrite for_return_None.
  apply Forall_iff. intros c. apply suggest_in_course_None.
Qed.

Lemma suggest_in_courses_Some cid courses cr c :
  suggest_in_courses cid courses = Some (cr, c) <-> first_eligible cid courses cr c.
Proof.
  unfold suggest_in_courses, first_eligible. rewrite for_return_Some. split.
  - intros (cs1 & c0 & cs2 & Hcs & Hnone & Hc0).
    apply suggest_in_course_Some in Hc0 as (-> & rs1 & rs2 & Hruns & Hrs1 & Hcr).
    exists cs1, cs2, rs1, rs2. repeat split; try done.
    eapply Forall_impl; [exact Hnone|]. intros x. apply suggest_in_course_None.
  - intros (cs1 & cs2 & rs1 & rs2 & Hcs & Hnone & Hruns & Hrs1 & Hcr).
    exists cs1, c, cs2. repeat split; [done| |].
    + eapply Forall_impl; [exact Hnone|]. intros x. apply suggest_in_course_None.
    + apply suggest_in_course_Some. split; [done|]. by exists rs1, rs2.
Qed.

Lemma for_return_M_cons {A R : Type} (x : A) xs (body : A -> M (option R)) w :
  for_return_M (x :: xs) body w =
  match body x w with
  | (Ok (Some v), w') => (Ok (Some v), w')
  | (Ok None, w') => for_return_M xs body w'
  | (Raise e, w') => (Raise e, w')
  end.
Proof.
  cbn [for_return_M]. unfold mbind, M_bind.
  by destruct (body x w) as [[[v|]|e] w'].
Qed.

Lemma suggest_in_program_run cid l w :
  suggest_in_program cid l w =
  match progress w !! l with
  | Some d =>
      match suggest_in_courses cid (ProgramProgress.not_started d) with
      | Some (cr, c) => (Ok (Some [PyProgressRef l; PyCourseRun cr; PyCourse c]), w)
      | None => (Ok None, w)
      end
  | None => (Raise InvalidReference, w)
  end.
Proof.
  unfold suggest_in_program, read_progress, mbind, M_bind.
  destruct (progress w !! l) as [d|]; [|done].
  by destruct (suggest_in_courses cid (ProgramProgress.not_started d)) as [[cr c]|].
Qed.

Lemma suggest_loop_cases cid pps w :
  (exists ls1 l ls2 d cr c,
      pps = ls1 ++ l :: ls2 /\ Forall (no_suggestion_in w cid) ls1 /\
      progress w !! l = Some d /\
      first_eligible cid (ProgramProgress.not_started d) cr c /\
      for_return_M pps (suggest_in_program cid) w
      = (Ok (Some [PyProgressRef l; PyCourseRun cr; PyCourse c]), w))
  \/ (Forall (no_suggestion_in w cid) pps /\
      for_return_M pps (suggest_in_program cid) w = (Ok None, w))
  \/ (exists ls1 l ls2,
      pps = ls1 ++ l :: ls2 /\ Forall (no_suggestion_in w cid) ls1 /\
      progress w !! l = None /\
      for_return_M pps (suggest_in_program cid) w = (Raise InvalidReference, w)).
Proof.
  induction pps as [|l pps IH].
  - right; left. by split.
  - rewrite for_return_M_cons, suggest_in_program_run.
    destruct (progress w !! l) as [d|] eqn:Hl.
    + destruct (suggest_in_courses cid (ProgramProgress.not_started d))
        as [[cr c]|] eqn:Hs.
      * left. exists [], l, pps, d, cr, c. split_and!; try done.
        by apply suggest_in_courses_Some.
      * assert (Hno : no_suggestion_in w cid l).
        { exists d. split; [done|]. by apply suggest_in_courses_None. }
        destruct IH as [(ls1 & l' & ls2 & d' & cr & c & -> & Hls1 & Hl' & Hfirst & Hrun)
                       |[[Hall Hrun]|(ls1 & l' & ls2 & -> & Hls1 & Hl' & Hrun)]].
        -- left. exists (l :: ls1), l', ls2, d', cr, c. split_and!; try done.
           by constructor.
        -- right; left. split; [by constructor | done].
        -- right; right. exists (l :: ls1), l', ls2. split_and!; try done.
           by constructor.
    + right; right. by exists [], l, pps.
Qed.

Lemma get_course_run_to_suggest_unfold pps cid w :
  get_course_run_to_suggest pps cid w =
  match for_return_M pps (suggest_in_program cid) w with
  | (Ok (Some t), w') => (Ok t, w')
  | (Ok None, w') => (Ok [PyNone; PyNone], w')
  | (Raise e, w') => (Raise e, w')
  end.
Proof.
  unfold get_course_run_to_suggest, mbind, M_bind.
  destruct (for_return_M pps (suggest_in_program cid) w) as [[[t|]|e] w']; done.
Qed.

(** What a call of [get_course_run_to_suggest] does, in three cases: the
    first progress dict with an eligible pair gives the tuple of three; when
    there is none the tuple [(None, None)] is returned; the world is the one
    the call started in. *)
Lemma get_course_run_to_suggest_cases pps cid w :
  (exists ls1 l ls2 d cr c,
      pps = ls1 ++ l :: ls2 /\ Forall (no_suggestion_in w cid) ls1 /\
      progress w !! l = Some d /\
      first_eligible cid (ProgramProgress.not_started d) cr c /\
      get_course_run_to_suggest pps cid w
      = (Ok [PyProgressRef l; PyCourseRun cr; PyCourse c], w))
  \/ (Forall (no_suggestion_in w cid) pps /\
      get_course_run_to_suggest pps cid w = (Ok [PyNone; PyNone], w))
  \/ (exists ls1 l ls2,
      pps = ls1 ++ l :: ls2 /\ Forall (no_suggestion_in w cid) ls1 /\
      progress w !! l = None /\
      get_course_run_to_suggest pps cid w = (Raise InvalidReference, w)).
Proof.
  rewrite get_course_run_to_suggest_unfold.
  destruct (suggest_loop_cases cid pps w)
    as [(ls1 & l & ls2 & d & cr & c & ? & ? & ? & ? & Hrun)
       |[[? Hrun]|(ls1 & l & ls2 & ? & ? & ? & Hrun)]]; rewrite Hrun.
  - left. by exists ls1, l, ls2, d, cr, c.
  - right; left. done.
  - right; right. by exists ls1, l, ls2.
Qed.

Lemma eligible_spec cid r :
  eligible cid r = true <->
  CourseRun.is_enrollable r = true /\
  CourseRun.is_marketable r = true /\
  (exists url, CourseRun.marketing_url r = Some url /\ url <> "") /\
  (exists i, CourseRun.image r = Some i) /\
  CourseRun.status r = "published" /\
  CourseRun.key r <> cid.
Proof.
  unfold eligible, valid_course_run, COURSE_PUBLISHED.
  rewrite !andb_true_iff, negb_true_iff, String.eqb_eq, String.eqb_neq.
  unfold truthy, truthy_bool, truthy_option, truthy, truthy_str, truthy_image.
  split.
  - intros [[[[[He Hm] Hu] Hi] Hs] Hk]. split_and!; try done.
    + destruct (CourseRun.marketing_url r) as [[|a u]|]; try done.
      by exists (String a u).
    + destruct (CourseRun.image r) as [i|]; [by exists i | done].
  - intros (He & Hm & (u & -> & Hu) & (i & ->) & Hs & Hk). split_and!; try done.
    by destruct u.
Qed.

Lemma suggest_loop_same_result cid pps w1 w2 :
  Forall (same_not_started w1 w2) pps ->
  (for_return_M pps (suggest_in_program cid) w1).1
  = (for_return_M pps (suggest_in_program cid) w2).1.
Proof.
  induction 1 as [|l pps Hl _ IH]; [done|].
  rewrite !for_return_M_cons, !suggest_in_program_run.
  unfold same_not_started in Hl.
  destruct (progress w1 !! l) as [d1|], (progress w2 !! l) as [d2|]; try done.
  rewrite Hl.
  by destruct (suggest_in_courses cid (ProgramProgress.not_started d2)) as [[cr c]|].
Qed.

Lemma get_course_run_to_suggest_same_result cid pps w1 w2 :
  Forall (same_not_started w1 w2) pps ->
  (get_course_run_to_suggest pps cid w1).1 = (get_course_run_to_suggest pps cid w2).1.
Proof.
  intros H. apply (suggest_loop_same_result cid) in H.
  rewrite !get_course_run_to_suggest_unfold.
  destruct (for_return_M pps (suggest_in_program cid) w1) as [[[t1|]|e1] w1'],
           (for_return_M pps (suggest_in_program cid) w2) as [[[t2|]|e2] w2'];
    simpl in *; congruence.
Qed.

Lemma get_course_run_to_suggest_world pps cid w :
  (get_course_run_to_suggest pps cid w).2 = w.
Proof.
  destruct (get_course_run_to_suggest_cases pps cid w)
    as [(ls1 & l & ls2 & d & cr & c & _ & _ & _ & _ & ->)
       |[[_ ->]|(ls1 & l & ls2 & _ & _ & _ & ->)]]; done.
Qed.

(** The tuple of three that [get_course_run_to_suggest] returns names the
    first eligible triple. *)
Lemma get_course_run_to_suggest_found pps cid w l cr c w' :
  get_course_run_to_suggest pps cid w
  = (Ok [PyProgressRef l; PyCourseRun cr; PyCourse c], w') ->
  exists ls1 ls2 d,
    pps = ls1 ++ l :: ls2 /\ Forall (no_suggestion_in w cid) ls1 /\
    progress w !! l = Some d /\
    first_eligible cid (ProgramProgress.not_started d) cr c.
Proof.
  destruct (get_course_run_to_suggest_cases pps cid w)
    as [(ls1 & l0 & ls2 & d & cr0 & c0 & ? & ? & ? & ? & ->)
       |[[_ ->]|(ls1 & l0 & ls2 & _ & _ & _ & ->)]]; intros [= <- <- <- <-] || done.
  by exists ls1, ls2, d.
Qed.

(** Every tuple [get_course_run_to_suggest] returns is either a triple (a
    progress dict, a course run, a course) or [(None, None)]. *)
Lemma get_course_run_to_suggest_shape pps cid w t w' :
  get_course_run_to_suggest pps cid w = (Ok t, w') ->
  t = [PyNone; PyNone] \/
  exists l cr c, t = [PyProgressRef l; PyCourseRun cr; PyCourse c].
Proof.
  destruct (get_course_run_to_suggest_cases pps cid w)
    as [(ls1 & l0 & ls2 & d & cr0 & c0 & ? & ? & ? & ? & ->)
       |[[_ ->]|(ls1 & l0 & ls2 & _ & _ & _ & ->)]]; intros [= <- <-] || done.
  - right. by exists l0, cr0, c0.
  - by left.
Qed.

(** C2. A course run returned by [get_course_run_to_suggest] is enrollable,
    marketable, has a non-empty marketing URL, has an image, is published,
    and its key is not the key of the completed course. *)
Theorem suggested_course_run_is_eligible pps cid w t w' cr :
  get_course_run_to_suggest pps cid w = (Ok t, w') ->
  In (PyCourseRun cr) t ->
  CourseRun.is_enrollable cr = true /\
  CourseRun.is_marketable cr = true /\
  (exists url, CourseRun.marketing_url cr = Some url /\ url <> "") /\
  (exists i, CourseRun.image cr = Some i) /\
  CourseRun.status cr = "published" /\
  CourseRun.key cr <> cid.
Proof.
  intros Hrun Hin.
  destruct (get_course_run_to_suggest_shape _ _ _ _ _ Hrun) as [->|(l & cr0 & c & ->)].
  - destruct Hin as [H|[H|[]]]; discriminate.
  - assert (cr0 = cr) as ->.
    { destruct Hin as [H|[H|[H|[]]]]; try discriminate. by injection H. }
    apply get_course_run_to_suggest_found in Hrun
      as (ls1 & ls2 & d & _ & _ & _ & (cs1 & cs2 & rs1 & rs2 & _ & _ & _ & _ & Hel)).
    by apply eligible_spec in Hel.
Qed.

Lemma suggested_course_run_is_eligible_witness :
  CourseRun.is_enrollable Scenario.run_cs202 = true /\
  CourseRun.is_marketable Scenario.run_cs202 = true /\
  (exists url, CourseRun.marketing_url Scenario.run_cs202 = Some url /\ url <> "") /\
  (exists i, CourseRun.image Scenario.run_cs202 = Some i) /\
  CourseRun.status Scenario.run_cs202 = "published" /\
  CourseRun.key Scenario.run_cs202 <> "CS101".
Proof.
  apply (suggested_course_run_is_eligible [0; 1]%nat "CS101" Scenario.world_progress
           [PyProgressRef 1; PyCourseRun Scenario.run_cs202; PyCourse Scenario.course_202]
           Scenario.world_progress).
  - reflexivity.
  - simpl. right. left. reflexivity.
Defined.

Lemma get_course_run_to_suggest_complete ls1 l ls2 d cr c cid w :
  Forall (no_suggestion_in w cid) ls1 ->
  progress w !! l = Some d ->
  first_eligible cid (ProgramProgress.not_started d) cr c ->
  get_course_run_to_suggest (ls1 ++ l :: ls2) cid w
  = (Ok [PyProgressRef l; PyCourseRun cr; PyCourse c], w).
Proof.
  intros Hls1 Hl Hfirst. rewrite get_course_run_to_suggest_unfold.
  assert (for_return_M (ls1 ++ l :: ls2) (suggest_in_program cid) w
          = (Ok (Some [PyProgressRef l; PyCourseRun cr; PyCourse c]), w)) as ->; [|done].
  induction Hls1 as [|l0 ls1 (d0 & Hl0 & Hnone) _ IH]; simpl app;
    rewrite for_return_M_cons, suggest_in_program_run.
  - rewrite Hl. apply suggest_in_courses_Some in Hfirst. by rewrite Hfirst.
  - rewrite Hl0. apply suggest_in_courses_None in Hnone. by rewrite Hnone.
Qed.

Lemma some_eligible_first cid courses :
  Exists (fun c => Exists (fun r => eligible cid r = true) (Course.course_runs c)) courses ->
  exists cr c, first_eligible cid courses cr c.
Proof.
  intros Hex.
  destruct (suggest_in_courses cid courses) as [[cr c]|] eqn:Hs.
  - exists cr, c. by apply suggest_in_courses_Some.
  - apply suggest_in_courses_None in Hs. exfalso.
    apply Exists_exists in Hex as (c & Hc & Hex).
    apply Exists_exists in Hex as (r & Hr & Hel).
    unfold none_eligible in Hs. rewrite Forall_forall in Hs.
    specialize (Hs c Hc). rewrite Forall_forall in Hs. specialize (Hs r Hr). congruence.
Qed.

(** C3. The triple [get_course_run_to_suggest] returns is the first eligible
    one in the order of the list of progress dicts, then of the courses not
    started, then of the course runs; with two programs of which the first
    has nothing eligible and the second has, the triple is of the second. *)
Theorem suggestion_is_first_eligible cid w :
  (forall pps l cr c w',
      get_course_run_to_suggest pps cid w
      = (Ok [PyProgressRef l; PyCourseRun cr; PyCourse c], w') <->
      w' = w /\
      exists ls1 ls2 d,
        pps = ls1 ++ l :: ls2 /\ Forall (no_suggestion_in w cid) ls1 /\
        progress w !! l = Some d /\
        first_eligible cid (ProgramProgress.not_started d) cr c) /\
  (forall l1 l2 d2,
      no_suggestion_in w cid l1 ->
      progress w !! l2 = Some d2 ->
      Exists (fun c => Exists (fun r => eligible cid r = true) (Course.course_runs c))
        (ProgramProgress.not_started d2) ->
      exists cr c,
        get_course_run_to_suggest [l1; l2] cid w
        = (Ok [PyProgressRef l2; PyCourseRun cr; PyCourse c], w) /\
        first_eligible cid (ProgramProgress.not_started d2) cr c).
Proof.
  split.
  - intros pps l cr c w'. split.
    + intros Hrun. split.
      * pose proof (get_course_run_to_suggest_world pps cid w) as Hw.
        rewrite Hrun in Hw. done.
      * by apply get_course_run_to_suggest_found in Hrun.
    + intros (-> & ls1 & ls2 & d & -> & Hls1 & Hl & Hfirst).
      by apply get_course_run_to_suggest_complete with d.
  - intros l1 l2 d2 Hl1 Hl2 Hex.
    destruct (some_eligible_first _ _ Hex) as (cr & c & Hfirst).
    exists cr, c. split; [|done].
    apply (get_course_run_to_suggest_complete [l1] l2 [] d2); [|done..].
    by constructor.
Qed.

Lemma suggestion_is_first_eligible_witness :
  exists cr c,
    get_course_run_to_suggest [0; 1]%nat "CS101" Scenario.world_progress
    = (Ok [PyProgressRef 1; PyCourseRun cr; PyCourse c], Scenario.world_progress) /\
    first_eligible "CS101" (ProgramProgress.not_started Scenario.progress_xs) cr c.
Proof.
  apply (proj2 (suggestion_is_first_eligible "CS101" Scenario.world_progress)
           0%nat 1%nat Scenario.progress_xs).
  - exists Scenario.progress_pc. split; [reflexivity|].
    repeat constructor.
  - reflexivity.
  - repeat constructor.
Defined.

(** C7. A course returned by [get_course_run_to_suggest] is one of the courses
    not started of the progress dict it is returned with; what the dicts hold
    as completed or in progress has no bearing on the result, and dicts with
    no course not started give no suggestion, whatever else they hold. *)
Theorem suggestion_is_not_started pps cid w :
  (forall l cr c w',
      get_course_run_to_suggest pps cid w
      = (Ok [PyProgressRef l; PyCourseRun cr; PyCourse c], w') ->
      In l pps /\
      exists d, progress w !! l = Some d /\
                In c (ProgramProgress.not_started d) /\
                In cr (Course.course_runs c)) /\
  (forall w2,
      Forall (same_not_started w w2) pps ->
      (get_course_run_to_suggest pps cid w).1 = (get_course_run_to_suggest pps cid w2).1) /\
  (Forall (fun l => exists d, progress w !! l = Some d /\
                              ProgramProgress.not_started d = []) pps ->
   get_course_run_to_suggest pps cid w = (Ok [PyNone; PyNone], w)).
Proof.
  split_and!.
  - intros l cr c w' Hrun.
    apply get_course_run_to_suggest_found in Hrun
      as (ls1 & ls2 & d & -> & _ & Hl & (cs1 & cs2 & rs1 & rs2 & Hcs & _ & Hrs & _ & _)).
    split; [apply in_elt|]. exists d. split_and!; [done| |].
    + rewrite Hcs. apply in_elt.
    + rewrite Hrs. apply in_elt.
  - intros w2. apply get_course_run_to_suggest_same_result.
  - intros Hall.
    destruct (get_course_run_to_suggest_cases pps cid w)
      as [(ls1 & l & ls2 & d & cr & c & -> & _ & Hl & Hfirst & _)
         |[[_ Hrun]|(ls1 & l & ls2 & -> & _ & Hl & _)]]; [exfalso|done|exfalso].
    + apply Forall_app in Hall as [_ Hall]. inversion Hall as [|? ? (d' & Hl' & Hd') _].
      rewrite Hl in Hl'. injection Hl' as <-.
      destruct Hfirst as (cs1 & cs2 & _ & _ & Hcs & _). rewrite Hd' in Hcs.
      by destruct cs1.
    + apply Forall_app in Hall as [_ Hall]. inversion Hall as [|? ? (d' & Hl' & _) _].
      congruence.
Qed.

Lemma suggestion_is_not_started_witness :
  (In 1%nat [0; 1]%nat /\
   exists d, progress Scenario.world_progress !! 1%nat = Some d /\
             In Scenario.course_202 (ProgramProgress.not_started d) /\
             In Scenario.run_cs202 (Course.course_runs Scenario.course_202)) /\
  get_course_run_to_suggest [1]%nat "CS101" Scenario.world_started
  = (Ok [PyNone; PyNone], Scenario.world_started).
Proof.
  split.
  - apply (proj1 (suggestion_is_not_started [0; 1]%nat "CS101" Scenario.world_progress)
             1%nat Scenario.run_cs202 Scenario.course_202 Scenario.world_progress).
    reflexivity.
  - apply (proj2 (proj2 (suggestion_is_not_started [1]%nat "CS101" Scenario.world_started))).
    constructor; [|constructor].
    exists Scenario.progress_xs_started. split; reflexivity.
Defined.

(** C8. A call of [get_course_run_to_suggest] ends in the world it started in
    (the progress dicts, the program dicts, the sink and the log are as
    before), and its result is determined by its arguments and the progress
    dicts they refer to. *)
Theorem get_course_run_to_suggest_pure pps cid :
  (forall w, (get_course_run_to_suggest pps cid w).2 = w) /\
  (forall w1 w2,
      Forall (fun l => progress w1 !! l = progress w2 !! l) pps ->
      (get_course_run_to_suggest pps cid w1).1 = (get_course_run_to_suggest pps cid w2).1).
Proof.
  split.
  - apply get_course_run_to_suggest_world.
  - intros w1 w2 Hall. apply get_course_run_to_suggest_same_result.
    eapply Forall_impl; [exact Hall|]. intros l Hl. unfold same_not_started.
    rewrite Hl. by destruct (progress w2 !! l).
Qed.

Lemma get_course_run_to_suggest_pure_witness :
  (get_course_run_to_suggest [0; 1]%nat "CS101" Scenario.world_progress).1
  = (get_course_run_to_suggest [0; 1]%nat "CS101"
       (mkWorld [Scenario.program_pc] (progress Scenario.world_progress) []
                [LogEmailsSent 0 []])).1.
Proof.
  apply (proj2 (get_course_run_to_suggest_pure [0; 1]%nat "CS101")).
  repeat constructor.
Defined.

(** ** [sorted] with a key *)

Section SortByKey.

Context {A : Type}.
Implicit Types (x : Z * A) (l : list (Z * A)).

Lemma insert_by_key_perm x l : insert_by_key x l ≡ₚ x :: l.
Proof.
  induction l as [|y l IH]; simpl; [done|].
  destruct (x.1 <=? y.1)%Z; [done|].
  rewrite IH. apply Permutation_swap.
Qed.

Lemma insert_by_key_sorted x l :
  StronglySorted key_le l -> StronglySorted key_le (insert_by_key x l).
Proof.
  induction 1 as [|y l Hl IH Hy]; simpl.
  - repeat constructor.
  - destruct (x.1 <=? y.1)%Z eqn:Hxy.
    + apply Z.leb_le in Hxy. constructor; [by constructor|].
      constructor; [done|]. eapply Forall_impl; [exact Hy|].
      intros z Hz. unfold key_le in *. lia.
    + apply Z.leb_gt in Hxy. constructor; [done|].
      rewrite insert_by_key_perm. constructor; [|done]. unfold key_le. lia.
Qed.

Lemma insert_by_key_filter (r : Z) x l :
  filter (fun y => y.1 = r) (insert_by_key x l) = filter (fun y => y.1 = r) (x :: l).
Proof.
  induction l as [|y l IH]; simpl; [done|].
  destruct (x.1 <=? y.1)%Z eqn:Hxy; [done|]. apply Z.leb_gt in Hxy.
  rewrite (filter_cons _ y), IH, !filter_cons.
  destruct (decide (y.1 = r)), (decide (x.1 = r)); try done. lia.
Qed.

Lemma sort_by_key_perm l : sort_by_key l ≡ₚ l.
Proof.
  induction l as [|x l IH]; simpl; [done|].
  by rewrite insert_by_key_perm, IH.
Qed.

Lemma sort_by_key_sorted l : StronglySorted key_le (sort_by_key l).
Proof.
  induction l as [|x l IH]; simpl; [constructor|]. by apply insert_by_key_sorted.
Qed.

Lemma sort_by_key_stable (r : Z) l :
  filter (fun y => y.1 = r) (sort_by_key l) = filter (fun y => y.1 = r) l.
Proof.
  induction l as [|x l IH]; simpl; [done|].
  by rewrite insert_by_key_filter, !filter_cons, IH.
Qed.

End SortByKey.

(** ** Ranking the programs *)

Lemma for_each_M_cons {A S : Type} (x : A) xs (body : S -> A -> M S) s w :
  for_each_M (x :: xs) body s w =
  match body s x w with
  | (Ok s', w') => for_each_M xs body s' w'
  | (Raise e, w') => (Raise e, w')
  end.
Proof. reflexivity. Qed.

Lemma mapM_cons {A B : Type} (f : A -> M B) x xs w :
  mapM f (x :: xs) w =
  match f x w with
  | (Ok y, w') =>
      match mapM f xs w' with
      | (Ok ys, w'') => (Ok (y :: ys), w'')
      | (Raise e, w'') => (Raise e, w'')
      end
  | (Raise e, w') => (Raise e, w')
  end.
Proof.
  cbn [mapM]. unfold mbind, M_bind. destruct (f x w) as [[y|e] w']; [|done].
  by destruct (mapM f xs w') as [[ys|e] w''].
Qed.

Lemma ranked_idemp d : ranked (ranked d) = ranked d.
Proof. reflexivity. Qed.

Lemma write_rank_run l w d :
  programs w !! l = Some d ->
  write_rank l w
  = (Ok tt, mkWorld (<[l := ranked d]> (programs w)) (progress w) (segment_calls w) (log w)).
Proof.
  intros Hl. unfold write_rank, read_program, write_program, mbind, M_bind.
  rewrite Hl. cbn. by rewrite ?Hl.
Qed.

(** The loop of [sort_programs]: every dict of the list has its rank written,
    and nothing else changes. *)
Lemma write_rank_loop refs w :
  Forall (fun l => is_Some (programs w !! l)) refs ->
  exists ps',
    for_each_M refs (fun _ program => write_rank program) tt w
    = (Ok tt, mkWorld ps' (progress w) (segment_calls w) (log w)) /\
    length ps' = length (programs w) /\
    forall k, ps' !! k = if decide (k ∈ refs) then ranked <$> programs w !! k
                         else programs w !! k.
Proof.
  revert w. induction refs as [|l refs IH]; intros w Hvalid.
  - exists (programs w). split_and!; try done. by destruct w.
  - inversion Hvalid as [|? ? [d Hl] Hrest]; subst.
    rewrite for_each_M_cons, (write_rank_run _ _ _ Hl).
    set (w1 := mkWorld (<[l := ranked d]> (programs w)) (progress w) (segment_calls w) (log w)).
    assert (Hlen : (l < length (programs w))%nat) by (by eapply lookup_lt_Some).
    destruct (IH w1) as (ps' & Hrun & Hlen' & Hlook).
    { eapply Forall_impl; [exact Hrest|]. intros k Hk. simpl.
      apply lookup_lt_is_Some. rewrite length_insert. by apply lookup_lt_is_Some. }
    exists ps'. split_and!; [done| |].
    + rewrite Hlen'. simpl. apply length_insert.
    + intros k. rewrite Hlook. simpl.
      destruct (decide (k = l)) as [Heq|Hne]; [subst k|].
      * rewrite list_lookup_insert_eq by done. rewrite Hl. simpl.
        destruct (decide (l ∈ l :: refs)) as [_|Hn]; [|exfalso; apply Hn; left].
        by destruct (decide (l ∈ refs)).
      * rewrite list_lookup_insert_ne by done.
        destruct (decide (k ∈ refs)) as [Hin|Hnin].
        -- by rewrite decide_True by (by right).
        -- rewrite decide_False; [done|]. by intros [?|?]%elem_of_cons.
Qed.

Lemma keyed_loop (f : loc -> Z) refs w :
  Forall (fun l => exists d, programs w !! l = Some d /\
                             Program.sort_revenue_order d = Some (f l)) refs ->
  mapM keyed refs w = (Ok (map (fun l => (f l, l)) refs), w).
Proof.
  induction 1 as [|l refs (d & Hl & Hk) _ IH]; [done|].
  assert (Hkeyed : keyed l w = (Ok (f l, l), w)).
  { unfold keyed, itemgetter_sort_revenue_order, read_program, mbind, M_bind.
    by rewrite Hl, Hk. }
  by rewrite mapM_cons, Hkeyed, IH.
Qed.

(** What a call of [sort_programs] does when its references are valid. *)
Lemma sort_programs_run refs w :
  Forall (fun l => is_Some (programs w !! l)) refs ->
  exists ps',
    sort_programs refs w
    = (Ok (map snd (sort_by_key (map (fun l => (program_rank w l, l)) refs))),
       mkWorld ps' (progress w) (segment_calls w) (log w)) /\
    length ps' = length (programs w) /\
    forall k, ps' !! k = if decide (k ∈ refs) then ranked <$> programs w !! k
                         else programs w !! k.
Proof.
  intros Hvalid. destruct (write_rank_loop refs w Hvalid) as (ps' & Hrun & Hlen & Hlook).
  exists ps'. split_and!; [|done..].
  unfold sort_programs. rewrite (bind_ok _ _ _ _ _ Hrun).
  assert (Hkeys : Forall (fun l => exists d,
             programs (mkWorld ps' (progress w) (segment_calls w) (log w)) !! l = Some d /\
             Program.sort_revenue_order d = Some (program_rank w l)) refs).
  { apply Forall_forall. intros l Hin. simpl.
    rewrite Forall_forall in Hvalid. destruct (Hvalid l Hin) as [d Hl].
    exists (ranked d). rewrite Hlook, decide_True by done. rewrite Hl. split; [done|].
    unfold program_rank. by rewrite Hl. }
  by rewrite (bind_ok _ _ _ _ _ (keyed_loop _ _ _ Hkeys)).
Qed.

Lemma StronglySorted_lookup_lt {A : Type} (R : relation A) (l : list A) i j a b :
  StronglySorted R l -> (i < j)%nat -> l !! i = Some a -> l !! j = Some b -> R a b.
Proof.
  intros Hs. revert i j. induction Hs as [|x l Hs IH Hx]; intros i j Hij Hi Hj.
  - done.
  - destruct j as [|j]; [lia|]. destruct i as [|i]; simpl in *.
    + injection Hi as ->. rewrite Forall_forall in Hx.
      apply Hx. by eapply list_elem_of_lookup_2.
    + apply (IH i j); [lia|done..].
Qed.

Section Keyed.

Context (rk : nat -> Z).

Lemma sorted_snd_keyed (s : list (Z * nat)) :
  Forall (fun x => x.1 = rk x.2) s ->
  StronglySorted key_le s ->
  StronglySorted (fun a b => (rk a <= rk b)%Z) (map snd s).
Proof.
  intros Hk Hs. induction Hs as [|x s Hs IH Hx]; simpl; [constructor|].
  inversion Hk as [|? ? Hkx Hks]; subst. constructor; [by apply IH|].
  apply Forall_forall. intros b Hb.
  apply list_elem_of_In, in_map_iff in Hb as (y & <- & Hy). apply list_elem_of_In in Hy.
  rewrite Forall_forall in Hx, Hks. specialize (Hx y Hy). specialize (Hks y Hy).
  unfold key_le in Hx. lia.
Qed.

Lemma filter_snd_keyed (r : Z) (s : list (Z * nat)) :
  Forall (fun x => x.1 = rk x.2) s ->
  filter (fun l => rk l = r) (map snd s) = map snd (filter (fun x => x.1 = r) s).
Proof.
  induction 1 as [|x s Hx _ IH]; [done|]. cbn [map].
  rewrite !filter_cons, IH.
  destruct (decide (rk x.2 = r)), (decide (x.1 = r)); try done; congruence.
Qed.

Lemma keyed_list_ok (refs : list nat) :
  Forall (fun x => x.1 = rk x.2) (map (fun l => (rk l, l)) refs).
Proof. apply Forall_forall. intros x (l & <- & _)%list_elem_of_In%in_map_iff. done. Qed.

Lemma snd_keyed_list (refs : list nat) : map snd (map (fun l => (rk l, l)) refs) = refs.
Proof. rewrite map_map. apply map_id. Qed.

End Keyed.

Lemma revenue_rank_unknown t : t ∉ known_types -> revenue_rank t = 7.
Proof.
  unfold known_types. rewrite !not_elem_of_cons. intros (? & ? & ? & ? & ? & ? & _).
  unfold revenue_rank, sort_revenue_order.
  by rewrite !lookup_insert_ne, lookup_empty by done.
Qed.

Lemma program_rank_ranked w ps' (refs : list nat) (k : nat) :
  (forall k, ps' !! k = if decide (k ∈ refs) then ranked <$> programs w !! k
                        else programs w !! k) ->
  program_rank (mkWorld ps' (progress w) (segment_calls w) (log w)) k = program_rank w k.
Proof.
  intros Hlook. unfold program_rank. simpl. rewrite Hlook.
  destruct (decide (k ∈ refs)); [|done]. by destruct (programs w !! k).
Qed.

(** C4. The list [sort_programs] returns holds the references it was given,
    arranged by non-decreasing rank of the type of their program in the
    table (MicroMasters 1, Professional Program 2, Professional Certificate 3,
    XSeries 4, Masters 5, MicroBachelors 6, any other type 7, hence after all
    the listed types); programs of the same rank keep the order they had. *)
Theorem sort_programs_sorted_stable :
  (revenue_rank "MicroMasters" = 1 /\
   revenue_rank "Professional Program" = 2 /\
   revenue_rank "Professional Certificate" = 3 /\
   revenue_rank "XSeries" = 4 /\
   revenue_rank "Masters" = 5 /\
   revenue_rank "MicroBachelors" = 6 /\
   forall t, t ∉ known_types -> revenue_rank t = 7) /\
  forall w refs,
    Forall (fun l => is_Some (programs w !! l)) refs ->
    exists out w',
      sort_programs refs w = (Ok out, w') /\
      out ≡ₚ refs /\
      StronglySorted (fun a b => (program_rank w a <= program_rank w b)%Z) out /\
      (forall r, filter (fun l => program_rank w l = r) out
                 = filter (fun l => program_rank w l = r) refs) /\
      (forall i j a b,
          out !! i = Some a -> out !! j = Some b ->
          (program_rank w a < 7)%Z -> program_rank w b = 7 -> (i < j)%nat) /\
      (forall l, program_rank w' l = program_rank w l).
Proof.
  split.
  - split_and!; try (vm_compute; reflexivity). apply revenue_rank_unknown.
  - intros w refs Hvalid.
    destruct (sort_programs_run refs w Hvalid) as (ps' & Hrun & Hlen & Hlook).
    set (ks := map (fun l => (program_rank w l, l)) refs) in *.
    assert (Hks : Forall (fun x => x.1 = program_rank w x.2) (sort_by_key ks)).
    { rewrite sort_by_key_perm. apply keyed_list_ok. }
    assert (Hsorted : StronglySorted (fun a b => (program_rank w a <= program_rank w b)%Z)
                        (map snd (sort_by_key ks))).
    { apply sorted_snd_keyed; [done|]. apply sort_by_key_sorted. }
    eexists _, _. split_and!; [exact Hrun| | done | | |].
    + transitivity (map snd ks); [apply Permutation_map, sort_by_key_perm|].
      unfold ks. by rewrite snd_keyed_list.
    + intros r. rewrite (filter_snd_keyed _ _ _ Hks), sort_by_key_stable.
      rewrite <- (filter_snd_keyed _ _ _ (keyed_list_ok (program_rank w) refs)).
      by rewrite snd_keyed_list.
    + intros i j a b Hi Hj Ha Hb.
      destruct (decide (i < j)%nat) as [|Hge]; [done|]. exfalso.
      destruct (decide (i = j)) as [->|Hne]; [rewrite Hi in Hj; injection Hj as ->; lia|].
      assert (j < i)%nat as Hji by lia.
      pose proof (StronglySorted_lookup_lt _ _ _ _ _ _ Hsorted Hji Hj Hi). simpl in *. lia.
    + intros l. by apply (program_rank_ranked w ps' refs).
Qed.

Lemma sort_programs_sorted_stable_witness :
  exists out w',
    sort_programs [0; 1]%nat world_catalog = (Ok out, w') /\
    out ≡ₚ [0; 1]%nat /\
    StronglySorted (fun a b => (program_rank world_catalog a <= program_rank world_catalog b)%Z)
      out /\
    (forall r, filter (fun l => program_rank world_catalog l = r) out
               = filter (fun l => program_rank world_catalog l = r) [0; 1]%nat) /\
    (forall i j a b,
        out !! i = Some a -> out !! j = Some b ->
        (program_rank world_catalog a < 7)%Z -> program_rank world_catalog b = 7 ->
        (i < j)%nat) /\
    (forall l, program_rank w' l = program_rank world_catalog l).
Proof.
  apply (proj2 sort_programs_sorted_stable world_catalog [0; 1]%nat).
  repeat constructor; eexists; reflexivity.
Defined.

(** C9. [sort_programs] writes into the program dicts it is given: after the
    call every dict of the list has its key [sort_revenue_order] set to the
    rank of its type, whatever it held before, the caller sees this through
    its own references, and nothing else in the world has changed. *)
Theorem sort_programs_writes_rank w refs :
  Forall (fun l => is_Some (programs w !! l)) refs ->
  exists out w',
    sort_programs refs w = (Ok out, w') /\
    out ≡ₚ refs /\
    (forall l d, l ∈ refs -> programs w !! l = Some d ->
       programs w' !! l
       = Some (set_sort_revenue_order d (revenue_rank (Program.type d)))) /\
    (forall l, l ∉ refs -> programs w' !! l = programs w !! l) /\
    progress w' = progress w /\ segment_calls w' = segment_calls w /\ log w' = log w /\
    (forall l d, l ∈ refs -> programs w !! l = Some d ->
       Program.sort_revenue_order d <> Some (revenue_rank (Program.type d)) ->
       programs w' <> programs w).
Proof.
  intros Hvalid.
  destruct (sort_programs_run refs w Hvalid) as (ps' & Hrun & Hlen & Hlook).
  eexists _, _. split_and!; [exact Hrun| | | |done..|].
  - etransitivity; [apply Permutation_map, sort_by_key_perm|].
    by rewrite snd_keyed_list.
  - intros l d Hin Hl. simpl. by rewrite Hlook, decide_True, Hl by done.
  - intros l Hnin. simpl. by rewrite Hlook, decide_False by done.
  - intros l d Hin Hl Hne Heq. simpl in Heq.
    pose proof (Hlook l) as Hl'. rewrite decide_True, Heq, Hl in Hl' by done.
    injection Hl' as Hd. apply Hne. rewrite Hd at 1. done.
Qed.

Lemma sort_programs_writes_rank_witness :
  exists out w',
    sort_programs [0; 1]%nat world_catalog = (Ok out, w') /\
    out ≡ₚ [0; 1]%nat /\
    (forall l d, l ∈ [0; 1]%nat -> programs world_catalog !! l = Some d ->
       programs w' !! l
       = Some (set_sort_revenue_order d (revenue_rank (Program.type d)))) /\
    (forall l, l ∉ [0; 1]%nat -> programs w' !! l = programs world_catalog !! l) /\
    progress w' = progress world_catalog /\
    segment_calls w' = segment_calls world_catalog /\
    log w' = log world_catalog /\
    (forall l d, l ∈ [0; 1]%nat -> programs world_catalog !! l = Some d ->
       Program.sort_revenue_order d <> Some (revenue_rank (Program.type d)) ->
       programs w' <> programs world_catalog).
Proof.
  apply (sort_programs_writes_rank world_catalog [0; 1]%nat).
  repeat constructor; eexists; reflexivity.
Defined.

(** ** Runs of the scenario *)

Example handle_scenario_commit :
  exists w, handle Run.env false initial_world = (Ok tt, w) /\
    map (fun e => Event.COURSE_TWO_LINK (Event.props e)) (segment_calls w)
    = [Some "https://www.edx.org/course/cs202"] /\
    last (log w)
    = Some (LogEmailsSent 1 ["User: alice, Completed Course: CS101, Suggested Course: CS202"]).
Proof. eexists. split; [vm_compute; reflexivity|]. split; reflexivity. Qed.

Example handle_scenario_no_commit :
  exists w, handle Run.env true initial_world = (Ok tt, w) /\
    segment_calls w = [] /\
    last (log w)
    = Some (LogEmailsSent 1 ["User: alice, Completed Course: CS101, Suggested Course: CS202"]).
Proof. eexists. split; [vm_compute; reflexivity|]. split; reflexivity. Qed.

Example handle_scenario_enterprise :
  exists w, handle Run.env_enterprise false initial_world = (Ok tt, w) /\
    map (fun e => Event.COURSE_TWO_LINK (Event.props e)) (segment_calls w)
    = [Some "https://enterprise.edx.org/acme/course/C202"].
Proof. eexists. split; [vm_compute; reflexivity|]. reflexivity. Qed.

(** ** The event *)

(** The link [emit_event] computes for a course run and a course. *)
Lemma emit_event_ok env user program cr c completed w w' :
  emit_event env user program (PyCourseRun cr) (PyCourse c) completed w = (Ok tt, w') ->
  exists url r l d i,
    match portal_customer env user with
    | Some ec =>
        urllib_parse.urljoin (Some (ENTERPRISE_LEARNER_PORTAL_BASE_URL env))
          (Some (String.concat "/" [EnterpriseCustomer.slug ec; "course"; Course.key c]))
    | None => urllib_parse.urljoin (MKTG_URLS_ROOT env) (CourseRun.marketing_url cr)
    end = Ok url /\
    completed = Some r /\ program = Some l /\ programs w !! l = Some d /\
    CourseRun.image cr = Some i /\
    w' = mkWorld (programs w) (progress w)
           (segment_calls w ++
              [Event.mk (User.id user) "edx.bi.program.course-enrollment.nudge"
                 (Event.mk_properties (CourseRun.title r) (Program.type d) (Program.title d)
                    (CourseRun.title cr) (CourseRun.short_description cr) url (Image.src i))])
           (log w ++ [LogEventFired (CourseRun.key r) (Program.uuid d) (CourseRun.key cr)
                        (User.username user)]).
Proof.
  unfold emit_event, portal_customer.
  destruct (get_enterprise_learner_data_from_db env user) as [|[ec] rest]; cbn [truthy truthy_list head fmap option_fmap option_map EnterpriseLearner.enterprise_customer].
  all: unfold getitem_course_run, getitem_key, read_program, segment_track, LOGGER_info,
         raise, mbind, M_bind, mret, M_ret.
  all: repeat case_match; try discriminate; intros [= <-]; simplify_eq.
  all: by eexists _, _, _, _, _.
Qed.

Lemma concat_slug_course_key slug k :
  String.concat "/" [slug; "course"; k] = slug +:+ "/course/" +:+ k.
Proof. reflexivity. Qed.

(** C6, as the code has it. The link of the event is [urljoin] of the portal
    base URL and slug, [/course/], course key when the first
    enterprise-learner record of the user names a customer with the portal
    enabled, and [urljoin] of the marketing root and the marketing URL of the
    course run otherwise.  With the portal base URL
    [https://enterprise.edx.org], the slug [acme] and the course key [CS202]
    the link is [https://enterprise.edx.org/acme/course/CS202]. *)
Theorem recommended_course_url_is_urljoin env user program cr c completed w w' :
  emit_event env user program (PyCourseRun cr) (PyCourse c) completed w = (Ok tt, w') ->
  exists e,
    segment_calls w' = segment_calls w ++ [e] /\
    match portal_customer env user with
    | Some ec =>
        urllib_parse.urljoin (Some (ENTERPRISE_LEARNER_PORTAL_BASE_URL env))
          (Some (EnterpriseCustomer.slug ec +:+ "/course/" +:+ Course.key c))
    | None => urllib_parse.urljoin (MKTG_URLS_ROOT env) (CourseRun.marketing_url cr)
    end = Ok (Event.COURSE_TWO_LINK (Event.props e)) /\
    (forall ec,
        portal_customer env user = Some ec ->
        ENTERPRISE_LEARNER_PORTAL_BASE_URL env = "https://enterprise.edx.org" ->
        EnterpriseCustomer.slug ec = "acme" ->
        Course.key c = "CS202" ->
        Event.COURSE_TWO_LINK (Event.props e)
        = Some "https://enterprise.edx.org/acme/course/CS202").
Proof.
  intros Hrun.
  apply emit_event_ok in Hrun as (url & r & l & d & i & Hurl & _ & _ & _ & _ & ->).
  eexists. split; [reflexivity|]. simpl. split.
  - destruct (portal_customer env user) as [ec|]; [|done].
    by rewrite <- concat_slug_course_key.
  - intros ec Hec Hbase Hslug Hkey.
    rewrite Hec, Hbase, Hslug, Hkey in Hurl. vm_compute in Hurl. by injection Hurl.
Qed.

Lemma recommended_course_url_is_urljoin_witness :
  exists e,
    segment_calls
      (emit_event Run.env_enterprise Run.alice (Some 0%nat) (PyCourseRun Scenario.run_cs202)
         (PyCourse (Course.mk "CS202" [Scenario.run_cs202])) (Some Scenario.run_cs101)
         world_catalog).2
    = segment_calls world_catalog ++ [e] /\
    urllib_parse.urljoin (Some "https://enterprise.edx.org") (Some "acme/course/CS202")
    = Ok (Event.COURSE_TWO_LINK (Event.props e)) /\
    Event.COURSE_TWO_LINK (Event.props e)
    = Some "https://enterprise.edx.org/acme/course/CS202".
Proof.
  destruct (recommended_course_url_is_urljoin Run.env_enterprise Run.alice (Some 0%nat)
              Scenario.run_cs202 (Course.mk "CS202" [Scenario.run_cs202])
              (Some Scenario.run_cs101) world_catalog
              (emit_event Run.env_enterprise Run.alice (Some 0%nat)
                 (PyCourseRun Scenario.run_cs202)
                 (PyCourse (Course.mk "CS202" [Scenario.run_cs202]))
                 (Some Scenario.run_cs101) world_catalog).2)
    as (e & Hcalls & Hlink & Hexample).
  - vm_compute. reflexivity.
  - exists e. split_and!; [exact Hcalls | exact Hlink |].
    apply (Hexample Run.acme); reflexivity.
Defined.

(** For a portal base URL without a path, the link is the one of the
    scenario of the specification. *)
Example urljoin_portal_scenario :
  urllib_parse.urljoin (Some "https://enterprise.edx.org") (Some "acme/course/CS202")
  = Ok (Some "https://enterprise.edx.org/acme/course/CS202").
Proof. vm_compute. reflexivity. Qed.

(** For these two base URLs, which end in a path, the link is not the base
    URL followed by [/] and the rest. *)
Example urljoin_portal_with_path :
  urllib_parse.urljoin (Some "https://enterprise.edx.org/portal") (Some "acme/course/CS202")
  = Ok (Some "https://enterprise.edx.org/acme/course/CS202") /\
  urllib_parse.urljoin (Some "https://enterprise.edx.org/") (Some "acme/course/CS202")
  = Ok (Some "https://enterprise.edx.org/acme/course/CS202").
Proof. split; vm_compute; reflexivity. Qed.

(** C6, as the specification words it, fails: for the marketing root
    [https://www.edx.org] and the marketing URL
    [https://www.edx.org/course/cs202] of the scenario, the link is the
    marketing URL, not the root followed by it. *)
Lemma recommended_course_url_counterexample :
  ~ (forall env user program cr c completed w w' e,
        emit_event env user program (PyCourseRun cr) (PyCourse c) completed w = (Ok tt, w') ->
        last (segment_calls w') = Some e ->
        Event.COURSE_TWO_LINK (Event.props e)
        = Some (spec_recommended_course_url env user cr c)).
Proof.
  intros H.
  set (run := emit_event Run.env Run.alice (Some 0%nat) (PyCourseRun Scenario.run_cs202)
                (PyCourse Scenario.course_202) (Some Scenario.run_cs101) world_catalog).
  assert (Hrun : run = (Ok tt, run.2)) by (vm_compute; reflexivity).
  assert (Hlast : exists e, last (segment_calls run.2) = Some e /\
            Event.COURSE_TWO_LINK (Event.props e) = Some "https://www.edx.org/course/cs202").
  { eexists. split; vm_compute; reflexivity. }
  destruct Hlast as (e & Hlast & Hlink).
  specialize (H Run.env Run.alice (Some 0%nat) Scenario.run_cs202 Scenario.course_202
                (Some Scenario.run_cs101) world_catalog run.2 e Hrun Hlast).
  rewrite Hlink in H. vm_compute in H. discriminate H.
Qed.

(** ** The batch loop *)

(** When nothing is eligible, [get_course_run_to_suggest] returns the tuple
    [(None, None)]; it does not raise. *)
Lemma get_course_run_to_suggest_nothing pps cid w :
  Forall (no_suggestion_in w cid) pps ->
  get_course_run_to_suggest pps cid w = (Ok [PyNone; PyNone], w).
Proof.
  intros Hall. rewrite get_course_run_to_suggest_unfold.
  assert (for_return_M pps (suggest_in_program cid) w = (Ok None, w)) as ->; [|done].
  induction Hall as [|l pps (d & Hl & Hnone) _ IH]; [done|].
  rewrite for_return_M_cons, suggest_in_program_run, Hl.
  apply suggest_in_courses_None in Hnone. by rewrite Hnone.
Qed.

(** [handle] unpacks that tuple into three names, which raises. *)
Lemma handle_user_nothing env should_commit clp cid records user w pps w1 :
  meter_progress_call env user clp w = (Ok pps, w1) ->
  Forall (no_suggestion_in w1 cid) pps ->
  handle_user env should_commit clp cid records user w = (Raise ValueError, w1).
Proof.
  intros Hmeter Hall. unfold handle_user.
  rewrite (bind_ok _ _ _ _ _ Hmeter).
  by rewrite (bind_ok _ _ _ _ _ (get_course_run_to_suggest_nothing _ _ _ Hall)).
Qed.

(** C1. The learner of the scenario who has nothing left to start: the
    selection returns [(None, None)] without raising, and [handle], with or
    without [--no-commit], ends by raising [ValueError] instead of going on. *)
Theorem handle_raises_when_nothing_to_suggest :
  exists w,
    handle Run.env_nothing false initial_world = (Raise ValueError, w) /\
    handle Run.env_nothing true initial_world = (Raise ValueError, w) /\
    progress w = [Scenario.progress_pc; Scenario.progress_xs_started] /\
    get_course_run_to_suggest [0; 1]%nat "CS101" w = (Ok [PyNone; PyNone], w) /\
    segment_calls w = [] /\
    Forall (fun r => match r with LogEmailsSent _ _ => False | _ => True end) (log w).
Proof.
  eexists. split_and!; [vm_compute; reflexivity..| repeat constructor].
Qed.

(** ** [get_course_run] and the completed course run *)

Lemma find_course_run_flat courses id :
  find_course_run courses id
  = for_return (concat (map Course.course_runs courses))
      (fun r => if (CourseRun.key r =? id)%string then Some r else None).
Proof.
  unfold find_course_run. induction courses as [|c courses IH]; [done|].
  cbn [for_return map concat]. rewrite IH. clear IH.
  induction (Course.course_runs c) as [|r rs IHr]; [done|].
  cbn [for_return app]. by destruct (CourseRun.key r =? id)%string.
Qed.

Lemma find_course_run_Some courses id cr :
  find_course_run courses id = Some cr <->
  exists rs1 rs2,
    concat (map Course.course_runs courses) = rs1 ++ cr :: rs2 /\
    Forall (fun r => CourseRun.key r <> id) rs1 /\
    CourseRun.key cr = id.
Proof.
  rewrite find_course_run_flat, for_return_Some. split.
  - intros (rs1 & r & rs2 & Hflat & Hnone & Hr).
    destruct (CourseRun.key r =? id)%string eqn:Hk; [|done]. injection Hr as ->.
    exists rs1, rs2. split_and!; [done| |by apply String.eqb_eq].
    eapply Forall_impl; [exact Hnone|]. intros x Hx. simpl in Hx.
    destruct (CourseRun.key x =? id)%string eqn:Hxk; [done|]. by apply String.eqb_neq.
  - intros (rs1 & rs2 & Hflat & Hnone & Hk).
    exists rs1, cr, rs2. split_and!; [done| |].
    + eapply Forall_impl; [exact Hnone|]. intros x Hx. simpl.
      apply String.eqb_neq in Hx. by rewrite Hx.
    + apply String.eqb_eq in Hk. by rewrite Hk.
Qed.

Lemma find_course_run_None courses id :
  find_course_run courses id = None <->
  Forall (fun r => CourseRun.key r <> id) (concat (map Course.course_runs courses)).
Proof.
  rewrite find_course_run_flat, for_return_None. apply Forall_iff. intros r.
  destruct (CourseRun.key r =? id)%string eqn:Hk.
  - apply String.eqb_eq in Hk. split; [done|]. intros Hne. by destruct Hne.
  - apply String.eqb_neq in Hk. done.
Qed.

(** [emit_event] called with [None] for the completed course run raises
    before anything is sent. *)
Lemma emit_event_None env user program scr sc w :
  exists e, emit_event env user program scr sc None w = (Raise e, w).
Proof.
  unfold emit_event.
  destruct (get_enterprise_learner_data_from_db env user) as [|[ec] rest];
    cbn [truthy truthy_list head fmap option_fmap option_map
         EnterpriseLearner.enterprise_customer].
  all: unfold getitem_course_run, getitem_key, raise, mbind, M_bind, mret, M_ret.
  all: repeat case_match; simplify_eq; eauto.
Qed.

(** [handle_user] on a match, up to the call of [emit_event]. *)
Lemma handle_user_match env should_commit clp cid records user w pps w1 l cr c p r :
  meter_progress_call env user clp w = (Ok pps, w1) ->
  get_course_run_to_suggest pps cid w1
  = (Ok [PyProgressRef l; PyCourseRun cr; PyCourse c], w1) ->
  get_program clp (PyProgressRef l) w1 = (Ok p, w1) ->
  get_course_run p cid w1 = (Ok r, w1) ->
  handle_user env should_commit clp cid records user w
  = ((if should_commit
      then emit_event env user p (PyCourseRun cr) (PyCourse c) r
      else mret tt) ≫=
     (fun _ => mret (records ++ [email_sent_record user cid (CourseRun.key cr)]))) w1.
Proof.
  intros Hmeter Hsel Hprog Hrun. unfold handle_user.
  rewrite (bind_ok _ _ _ _ _ Hmeter), (bind_ok _ _ _ _ _ Hsel). cbn [unpack3].
  unfold mbind at 1, M_bind at 1, mret at 1, M_ret at 1.
  cbn [truthy truthy_pyobj andb].
  by rewrite (bind_ok _ _ _ _ _ Hprog), (bind_ok _ _ _ _ _ Hrun).
Qed.

(** C10. [get_course_run] returns the first course run of the program, in
    the order of its courses and their runs, whose key is the one asked for,
    and [None] when there is none; [handle] hands what it got to
    [emit_event] as it is, so that a committing run raises in [emit_event]
    when the completed course run is not in the suggested program. *)
Theorem completed_course_run_unchecked :
  (forall l d id w,
      programs w !! l = Some d ->
      exists r,
        get_course_run (Some l) id w = (Ok r, w) /\
        (forall cr, r = Some cr <->
           exists rs1 rs2,
             concat (map Course.course_runs (Program.courses d)) = rs1 ++ cr :: rs2 /\
             Forall (fun x => CourseRun.key x <> id) rs1 /\
             CourseRun.key cr = id) /\
        (r = None <->
         Forall (fun x => CourseRun.key x <> id)
           (concat (map Course.course_runs (Program.courses d))))) /\
  (forall env clp cid records user w pps w1 l cr c p,
      meter_progress_call env user clp w = (Ok pps, w1) ->
      get_course_run_to_suggest pps cid w1
      = (Ok [PyProgressRef l; PyCourseRun cr; PyCourse c], w1) ->
      get_program clp (PyProgressRef l) w1 = (Ok (Some p), w1) ->
      get_course_run (Some p) cid w1 = (Ok None, w1) ->
      handle_user env true clp cid records user w
      = (emit_event env user (Some p) (PyCourseRun cr) (PyCourse c) None ≫=
         (fun _ => mret (records ++ [email_sent_record user cid (CourseRun.key cr)]))) w1 /\
      exists e, handle_user env true clp cid records user w = (Raise e, w1)).
Proof.
  split.
  - intros l d id w Hl. exists (find_course_run (Program.courses d) id). split_and!.
    + unfold get_course_run, read_program, mbind, M_bind. by rewrite Hl.
    + intros cr. apply find_course_run_Some.
    + apply find_course_run_None.
  - intros env clp cid records user w pps w1 l cr c p Hmeter Hsel Hprog Hrun.
    pose proof (handle_user_match env true _ _ records _ _ _ _ _ _ _ _ _
                  Hmeter Hsel Hprog Hrun) as Heq.
    split; [exact Heq|]. rewrite Heq.
    destruct (emit_event_None env user (Some p) (PyCourseRun cr) (PyCourse c) w1)
      as [e He].
    exists e. by rewrite (bind_raise _ _ _ _ _ He).
Qed.

Lemma completed_course_run_unchecked_witness :
  exists e,
    handle_user Run.env_absent true [0]%nat "CS101" [] Run.alice Run.world_absent
    = (Raise e, mkWorld (programs Run.world_absent) [Scenario.progress_xs] [] []).
Proof.
  apply (proj2 completed_course_run_unchecked Run.env_absent [0]%nat "CS101" [] Run.alice
           Run.world_absent [0]%nat
           (mkWorld (programs Run.world_absent) [Scenario.progress_xs] [] [])
           0%nat Scenario.run_cs202 Scenario.course_202 0%nat);
    vm_compute; reflexivity.
Defined.

(** The run of that catalog: committing, [handle] raises [TypeError] and
    nothing is sent; with [--no-commit] it goes on and logs the record. *)
Example handle_scenario_absent :
  (exists w, handle Run.env_absent false initial_world = (Raise TypeError, w) /\
             segment_calls w = []) /\
  (exists w, handle Run.env_absent true initial_world = (Ok tt, w) /\
             last (log w)
             = Some (LogEmailsSent 1
                       ["User: alice, Completed Course: CS101, Suggested Course: CS202"])).
Proof. split; eexists; (split; [vm_compute; reflexivity | reflexivity]). Qed.

(** ** Parts of the world a computation leaves alone *)

Section Preserves.

Context {X : Type} (part : World -> X).

Lemma preserves_ret {A} (a : A) : preserves part (mret a).
Proof. by intros w. Qed.

Lemma preserves_raise {A} e : preserves part (raise (A := A) e).
Proof. by intros w. Qed.

Lemma preserves_bind {A B} (m : M A) (f : A -> M B) :
  preserves part m -> (forall a, preserves part (f a)) -> preserves part (m ≫= f).
Proof.
  intros Hm Hf w. unfold mbind, M_bind. specialize (Hm w).
  destruct (m w) as [[a|e] w']; simpl in *; [|done].
  by rewrite Hf.
Qed.

Lemma preserves_read_program l : preserves part (read_program l).
Proof. intros w. unfold read_program. by destruct (programs w !! l). Qed.

Lemma preserves_read_progress l : preserves part (read_progress l).
Proof. intros w. unfold read_progress. by destruct (progress w !! l). Qed.

Lemma preserves_for_return_M {A R} (xs : list A) (body : A -> M (option R)) :
  (forall x, preserves part (body x)) -> preserves part (for_return_M xs body).
Proof.
  intros Hbody. induction xs as [|x xs IH]; [apply preserves_ret|].
  cbn [for_return_M]. apply preserves_bind; [done|].
  intros [r|]; [apply preserves_ret | done].
Qed.

Lemma preserves_for_each_M {A S} (xs : list A) (body : S -> A -> M S) s :
  (forall s x, preserves part (body s x)) -> preserves part (for_each_M xs body s).
Proof.
  intros Hbody. revert s. induction xs as [|x xs IH]; intros s; [apply preserves_ret|].
  cbn [for_each_M]. by apply preserves_bind.
Qed.

Lemma preserves_mapM {A B} (f : A -> M B) (xs : list A) :
  (forall x, preserves part (f x)) -> preserves part (mapM f xs).
Proof.
  intros Hf. induction xs as [|x xs IH]; [apply preserves_ret|].
  cbn [mapM]. apply preserves_bind; [done|]. intros y.
  apply preserves_bind; [done|]. intros ys. apply preserves_ret.
Qed.

End Preserves.

Lemma sink_write_program l p : preserves segment_calls (write_program l p).
Proof. intros w. unfold write_program. by destruct (programs w !! l). Qed.

Lemma sink_new_programs ps : preserves segment_calls (new_programs ps).
Proof. by intros w. Qed.

Lemma sink_new_progress ps : preserves segment_calls (new_progress ps).
Proof. by intros w. Qed.

Lemma sink_LOGGER_info r : preserves segment_calls (LOGGER_info r).
Proof. by intros w. Qed.

Lemma stores_LOGGER_info r : preserves stores (LOGGER_info r).
Proof. by intros w. Qed.

Lemma stores_segment_track u n p : preserves stores (segment_track u n p).
Proof. by intros w. Qed.

(** Walks down a computation: [step] applies the rule of the construct at
    its head, a [match] is split by cases. *)
Ltac walk step := repeat first [ step | case_match | intros ? ].

Lemma sink_get_passed_course_to_users_maps env :
  preserves segment_calls (get_passed_course_to_users_maps env).
Proof.
  unfold get_passed_course_to_users_maps.
  walk ltac:(first
    [ apply preserves_ret | apply preserves_raise | apply preserves_read_program
    | apply preserves_read_progress | apply preserves_for_return_M
    | apply preserves_for_each_M | apply preserves_mapM | apply sink_write_program
    | apply sink_new_programs | apply sink_new_progress | apply sink_LOGGER_info
    | apply preserves_bind ]).
Qed.

Lemma sink_sort_programs refs : preserves segment_calls (sort_programs refs).
Proof.
  unfold sort_programs, write_rank, keyed, itemgetter_sort_revenue_order.
  walk ltac:(first
    [ apply preserves_ret | apply preserves_raise | apply preserves_read_program
    | apply preserves_read_progress | apply preserves_for_return_M
    | apply preserves_for_each_M | apply preserves_mapM | apply sink_write_program
    | apply sink_new_programs | apply sink_new_progress | apply sink_LOGGER_info
    | apply preserves_bind ]).
Qed.

Lemma sink_meter_progress_call env user refs :
  preserves segment_calls (meter_progress_call env user refs).
Proof.
  unfold meter_progress_call.
  walk ltac:(first
    [ apply preserves_ret | apply preserves_raise | apply preserves_read_program
    | apply preserves_read_progress | apply preserves_for_return_M
    | apply preserves_for_each_M | apply preserves_mapM | apply sink_write_program
    | apply sink_new_programs | apply sink_new_progress | apply sink_LOGGER_info
    | apply preserves_bind ]).
Qed.

Lemma sink_get_course_run_to_suggest pps cid :
  preserves segment_calls (get_course_run_to_suggest pps cid).
Proof. intros w. by rewrite get_course_run_to_suggest_world. Qed.

Lemma sink_get_program refs o : preserves segment_calls (get_program refs o).
Proof.
  unfold get_program, getitem_uuid.
  walk ltac:(first
    [ apply preserves_ret | apply preserves_raise | apply preserves_read_program
    | apply preserves_read_progress | apply preserves_for_return_M
    | apply preserves_for_each_M | apply preserves_mapM | apply sink_write_program
    | apply sink_new_programs | apply sink_new_progress | apply sink_LOGGER_info
    | apply preserves_bind ]).
Qed.

Lemma sink_get_course_run p id : preserves segment_calls (get_course_run p id).
Proof.
  unfold get_course_run.
  walk ltac:(first
    [ apply preserves_ret | apply preserves_raise | apply preserves_read_program
    | apply preserves_read_progress | apply preserves_for_return_M
    | apply preserves_for_each_M | apply preserves_mapM | apply sink_write_program
    | apply sink_new_programs | apply sink_new_progress | apply sink_LOGGER_info
    | apply preserves_bind ]).
Qed.

Lemma sink_handle_user env clp cid records user :
  preserves segment_calls (handle_user env false clp cid records user).
Proof.
  unfold handle_user, unpack3, getitem_key.
  apply preserves_bind; [apply sink_meter_progress_call|]. intros pps.
  apply preserves_bind; [apply sink_get_course_run_to_suggest|]. intros t.
  apply preserves_bind.
  { destruct t as [|a [|b [|c [|? ?]]]]; apply preserves_ret || apply preserves_raise. }
  intros [[spp scr] sc].
  destruct (truthy scr && truthy sc); [|apply preserves_ret].
  apply preserves_bind; [apply sink_get_program|]. intros p.
  apply preserves_bind; [apply sink_get_course_run|]. intros r.
  apply preserves_bind; [apply preserves_ret|]. intros _.
  apply preserves_bind; [|intros k; apply preserves_ret].
  destruct scr; apply preserves_ret || apply preserves_raise.
Qed.

Lemma sink_handle_course env records item :
  preserves segment_calls (handle_course env false records item).
Proof.
  unfold handle_course. destruct item as [cid users].
  apply preserves_bind; [apply sink_new_programs|]. intros refs.
  apply preserves_bind; [apply sink_sort_programs|]. intros sorted.
  destruct (truthy sorted); [|apply preserves_ret].
  apply preserves_for_each_M. intros s x. apply sink_handle_user.
Qed.

(** With [--no-commit], the sink receives no call, however the run ends. *)
Lemma sink_handle_no_commit env : preserves segment_calls (handle env true).
Proof.
  unfold handle. cbn [negb].
  apply preserves_bind; [apply sink_get_passed_course_to_users_maps|]. intros maps.
  apply preserves_bind; [|intros records; apply sink_LOGGER_info].
  apply preserves_for_each_M. intros s x. apply sink_handle_course.
Qed.

(** ** Runs that see the same dicts *)

Lemma stores_eq w1 w2 :
  stores w1 = stores w2 <-> programs w1 = programs w2 /\ progress w1 = progress w2.
Proof. unfold stores. split; [by intros [= -> ->] | by intros [-> ->]]. Qed.

Section StoreDetermined.

Lemma sd_ret {A} (a : A) : store_determined (mret a).
Proof. by intros w1 w2 H. Qed.

Lemma sd_raise {A} e : store_determined (raise (A := A) e).
Proof. by intros w1 w2 H. Qed.

Lemma sd_bind {A B} (m : M A) (f : A -> M B) :
  store_determined m -> (forall a, store_determined (f a)) -> store_determined (m ≫= f).
Proof.
  intros Hm Hf w1 w2 H. unfold mbind, M_bind. destruct (Hm w1 w2 H) as [Ho Hs].
  destruct (m w1) as [[a1|e1] w1'], (m w2) as [[a2|e2] w2'];
    simpl in *; try discriminate.
  - injection Ho as ->. by apply Hf.
  - injection Ho as ->. by split.
Qed.

Lemma sd_read_program l : store_determined (read_program l).
Proof.
  intros w1 w2 H. pose proof H as [Hp _]%stores_eq. unfold read_program. rewrite Hp.
  by destruct (programs w2 !! l).
Qed.

Lemma sd_read_progress l : store_determined (read_progress l).
Proof.
  intros w1 w2 H. pose proof H as [_ Hp]%stores_eq. unfold read_progress. rewrite Hp.
  by destruct (progress w2 !! l).
Qed.

Lemma sd_write_program l p : store_determined (write_program l p).
Proof.
  intros w1 w2 H. pose proof H as [Hp Hq]%stores_eq. unfold write_program. rewrite Hp.
  destruct (programs w2 !! l); [|done]. unfold stores. simpl. by rewrite Hq.
Qed.

Lemma sd_new_programs ps : store_determined (new_programs ps).
Proof.
  intros w1 w2 [Hp Hq]%stores_eq. unfold new_programs, stores. simpl. by rewrite Hp, Hq.
Qed.

Lemma sd_new_progress ps : store_determined (new_progress ps).
Proof.
  intros w1 w2 [Hp Hq]%stores_eq. unfold new_progress, stores. simpl. by rewrite Hp, Hq.
Qed.

Lemma sd_LOGGER_info r : store_determined (LOGGER_info r).
Proof. by intros w1 w2 H. Qed.

Lemma sd_for_return_M {A R} (xs : list A) (body : A -> M (option R)) :
  (forall x, store_determined (body x)) -> store_determined (for_return_M xs body).
Proof.
  intros Hbody. induction xs as [|x xs IH]; [apply sd_ret|].
  cbn [for_return_M]. apply sd_bind; [done|]. intros [r|]; [apply sd_ret | done].
Qed.

Lemma sd_for_each_M {A S} (xs : list A) (body : S -> A -> M S) s :
  (forall s x, store_determined (body s x)) -> store_determined (for_each_M xs body s).
Proof.
  intros Hbody. revert s. induction xs as [|x xs IH]; intros s; [apply sd_ret|].
  cbn [for_each_M]. by apply sd_bind.
Qed.

Lemma sd_mapM {A B} (f : A -> M B) (xs : list A) :
  (forall x, store_determined (f x)) -> store_determined (mapM f xs).
Proof.
  intros Hf. induction xs as [|x xs IH]; [apply sd_ret|].
  cbn [mapM]. apply sd_bind; [done|]. intros y.
  apply sd_bind; [done|]. intros ys. apply sd_ret.
Qed.

End StoreDetermined.

Lemma sd_get_passed_course_to_users_maps env :
  store_determined (get_passed_course_to_users_maps env).
Proof.
  unfold get_passed_course_to_users_maps.
  walk ltac:(first
    [ apply sd_ret | apply sd_raise | apply sd_read_program | apply sd_read_progress
    | apply sd_for_return_M | apply sd_for_each_M | apply sd_mapM
    | apply sd_write_program | apply sd_new_programs | apply sd_new_progress
    | apply sd_LOGGER_info | apply sd_bind ]).
Qed.

Lemma sd_sort_programs refs : store_determined (sort_programs refs).
Proof.
  unfold sort_programs, write_rank, keyed, itemgetter_sort_revenue_order.
  walk ltac:(first
    [ apply sd_ret | apply sd_raise | apply sd_read_program | apply sd_read_progress
    | apply sd_for_return_M | apply sd_for_each_M | apply sd_mapM
    | apply sd_write_program | apply sd_new_programs | apply sd_new_progress
    | apply sd_LOGGER_info | apply sd_bind ]).
Qed.

Lemma sd_meter_progress_call env user refs :
  store_determined (meter_progress_call env user refs).
Proof.
  unfold meter_progress_call.
  walk ltac:(first
    [ apply sd_ret | apply sd_raise | apply sd_read_program | apply sd_read_progress
    | apply sd_for_return_M | apply sd_for_each_M | apply sd_mapM
    | apply sd_write_program | apply sd_new_programs | apply sd_new_progress
    | apply sd_LOGGER_info | apply sd_bind ]).
Qed.

Lemma sd_get_course_run_to_suggest pps cid :
  store_determined (get_course_run_to_suggest pps cid).
Proof.
  unfold get_course_run_to_suggest, suggest_in_program.
  walk ltac:(first
    [ apply sd_ret | apply sd_raise | apply sd_read_program | apply sd_read_progress
    | apply sd_for_return_M | apply sd_for_each_M | apply sd_mapM
    | apply sd_write_program | apply sd_new_programs | apply sd_new_progress
    | apply sd_LOGGER_info | apply sd_bind ]).
Qed.

Lemma sd_get_program refs o : store_determined (get_program refs o).
Proof.
  unfold get_program, getitem_uuid.
  walk ltac:(first
    [ apply sd_ret | apply sd_raise | apply sd_read_program | apply sd_read_progress
    | apply sd_for_return_M | apply sd_for_each_M | apply sd_mapM
    | apply sd_write_program | apply sd_new_programs | apply sd_new_progress
    | apply sd_LOGGER_info | apply sd_bind ]).
Qed.

Lemma sd_get_course_run p id : store_determined (get_course_run p id).
Proof.
  unfold get_course_run.
  walk ltac:(first
    [ apply sd_ret | apply sd_raise | apply sd_read_program | apply sd_read_progress
    | apply sd_for_return_M | apply sd_for_each_M | apply sd_mapM
    | apply sd_write_program | apply sd_new_programs | apply sd_new_progress
    | apply sd_LOGGER_info | apply sd_bind ]).
Qed.

(** ** A run with [--no-commit] against a committing run *)

Lemma follows_refl {A} (m : M A) : store_determined m -> follows m m.
Proof.
  intros Hm wc wd a wc' H Hrun. destruct (Hm wc wd H) as [Ho Hs].
  rewrite Hrun in Ho, Hs. simpl in *.
  exists (m wd).2. split; [|done]. destruct (m wd) as [o w]. simpl in *. by subst.
Qed.

Lemma follows_bind {A B} (md mc : M A) (fd fc : A -> M B) :
  follows md mc -> (forall a, follows (fd a) (fc a)) -> follows (md ≫= fd) (mc ≫= fc).
Proof.
  intros Hm Hf wc wd b wc'' H Hrun.
  apply bind_ok_inv in Hrun as (a & wc' & Hmc & Hfc).
  destruct (Hm wc wd a wc' H Hmc) as (wd' & Hmd & H').
  destruct (Hf a wc' wd' b wc'' H' Hfc) as (wd'' & Hfd & H'').
  exists wd''. split; [|done]. by rewrite (bind_ok _ _ _ _ _ Hmd).
Qed.

Lemma follows_for_each_M {A S} (xs : list A) (bd bc : S -> A -> M S) s :
  (forall s x, follows (bd s x) (bc s x)) ->
  follows (for_each_M xs bd s) (for_each_M xs bc s).
Proof.
  intros Hbody. revert s. induction xs as [|x xs IH]; intros s.
  - apply follows_refl, sd_ret.
  - cbn [for_each_M]. by apply follows_bind.
Qed.

(** [emit_event] reads the dicts and writes to the sink and the log only. *)
Lemma stores_emit_event env user program scr sc completed :
  preserves stores (emit_event env user program scr sc completed).
Proof.
  unfold emit_event, getitem_course_run, getitem_key.
  destruct (get_enterprise_learner_data_from_db env user) as [|[ec] rest];
    cbn [truthy truthy_list head fmap option_fmap option_map
         EnterpriseLearner.enterprise_customer].
  all: walk ltac:(first
    [ apply preserves_ret | apply preserves_raise | apply preserves_read_program
    | apply stores_segment_track | apply stores_LOGGER_info | apply preserves_bind ]).
Qed.

Lemma follows_skip_emit_event env user program scr sc completed :
  follows (mret tt) (emit_event env user program scr sc completed).
Proof.
  intros wc wd [] wc' H Hrun. exists wd. split; [done|].
  pose proof (stores_emit_event env user program scr sc completed wc) as Hs.
  rewrite Hrun in Hs. simpl in Hs. congruence.
Qed.

Lemma follows_handle_user env clp cid records user :
  follows (handle_user env false clp cid records user)
          (handle_user env true clp cid records user).
Proof.
  unfold handle_user.
  apply follows_bind; [apply follows_refl, sd_meter_progress_call|]. intros pps.
  apply follows_bind; [apply follows_refl, sd_get_course_run_to_suggest|]. intros t.
  apply follows_bind.
  { apply follows_refl.
    destruct t as [|a [|b [|c [|? ?]]]]; apply sd_ret || apply sd_raise. }
  intros [[spp scr] sc].
  destruct (truthy scr && truthy sc); [|apply follows_refl, sd_ret].
  apply follows_bind; [apply follows_refl, sd_get_program|]. intros p.
  apply follows_bind; [apply follows_refl, sd_get_course_run|]. intros r.
  apply follows_bind; [apply follows_skip_emit_event|]. intros _.
  apply follows_refl, sd_bind; [|intros k; apply sd_ret].
  destruct scr; apply sd_ret || apply sd_raise.
Qed.

Lemma follows_handle_course env records item :
  follows (handle_course env false records item) (handle_course env true records item).
Proof.
  unfold handle_course. destruct item as [cid users].
  apply follows_bind; [apply follows_refl, sd_new_programs|]. intros refs.
  apply follows_bind; [apply follows_refl, sd_sort_programs|]. intros sorted.
  destruct (truthy sorted); [|apply follows_refl, sd_ret].
  apply follows_for_each_M. intros s x. apply follows_handle_user.
Qed.


(** * Further properties of the command *)

(** ** [get_program] *)

Lemma get_program_cons r refs l dp w :
  progress w !! l = Some dp ->
  get_program (r :: refs) (PyProgressRef l) w =
  match programs w !! r with
  | Some d =>
      if (Program.uuid d =? ProgramProgress.uuid dp)%string then (Ok (Some r), w)
      else get_program refs (PyProgressRef l) w
  | None => (Raise InvalidReference, w)
  end.
Proof.
  intros Hl. unfold get_program. rewrite for_return_M_cons.
  unfold getitem_uuid, read_program, read_progress, mbind, M_bind.
  destruct (programs w !! r) as [d|]; [|done]. rewrite Hl. cbn.
  by destruct (Program.uuid d =? ProgramProgress.uuid dp)%string.
Qed.

Lemma get_program_none refs l dp w :
  progress w !! l = Some dp ->
  Forall (other_uuid w (ProgramProgress.uuid dp)) refs ->
  get_program refs (PyProgressRef l) w = (Ok None, w).
Proof.
  intros Hl. induction 1 as [|r refs (d & Hr & Hne) _ IH]; [done|].
  rewrite (get_program_cons _ _ _ _ _ Hl), Hr.
  apply String.eqb_neq in Hne. by rewrite Hne.
Qed.

Lemma get_program_found rs1 p rs2 d l dp w :
  progress w !! l = Some dp ->
  Forall (other_uuid w (ProgramProgress.uuid dp)) rs1 ->
  programs w !! p = Some d ->
  Program.uuid d = ProgramProgress.uuid dp ->
  get_program (rs1 ++ p :: rs2) (PyProgressRef l) w = (Ok (Some p), w).
Proof.
  intros Hl Hrs1 Hp Hu.
  induction Hrs1 as [|r rs1 (d' & Hr & Hne) _ IH]; simpl app;
    rewrite (get_program_cons _ _ _ _ _ Hl).
  - rewrite Hp. apply String.eqb_eq in Hu. by rewrite Hu.
  - rewrite Hr. apply String.eqb_neq in Hne. by rewrite Hne.
Qed.

Lemma get_program_cases refs l dp w :
  Forall (fun r => is_Some (programs w !! r)) refs ->
  progress w !! l = Some dp ->
  (exists rs1 p rs2 d,
      refs = rs1 ++ p :: rs2 /\
      Forall (other_uuid w (ProgramProgress.uuid dp)) rs1 /\
      programs w !! p = Some d /\ Program.uuid d = ProgramProgress.uuid dp)
  \/ Forall (other_uuid w (ProgramProgress.uuid dp)) refs.
Proof.
  intros Hvalid Hl. induction Hvalid as [|r refs [d Hr] _ IH]; [by right|].
  destruct (decide (Program.uuid d = ProgramProgress.uuid dp)) as [Hu|Hne].
  - left. by exists [], r, refs, d.
  - assert (other_uuid w (ProgramProgress.uuid dp) r) as Hother by (by exists d).
    destruct IH as [(rs1 & p & rs2 & d' & -> & Hrs1 & Hp & Hu)|Hall].
    + left. exists (r :: rs1), p, rs2, d'. split_and!; try done. by constructor.
    + right. by constructor.
Qed.

(** X1. [get_program] returns the first program dict of the list that has the
    uuid of the progress dict, and [None] when no dict of the list has it; it
    changes nothing.  On an empty list it returns [None] without looking at
    the progress dict; on a non-empty list a progress dict that is [None]
    raises [TypeError]. *)
Theorem get_program_first_with_uuid refs w :
  Forall (fun r => is_Some (programs w !! r)) refs ->
  (forall l dp,
      progress w !! l = Some dp ->
      exists res,
        get_program refs (PyProgressRef l) w = (Ok res, w) /\
        (forall p, res = Some p <->
           exists rs1 rs2 d,
             refs = rs1 ++ p :: rs2 /\
             Forall (other_uuid w (ProgramProgress.uuid dp)) rs1 /\
             programs w !! p = Some d /\ Program.uuid d = ProgramProgress.uuid dp) /\
        (res = None <-> Forall (other_uuid w (ProgramProgress.uuid dp)) refs)) /\
  (forall o, get_program [] o w = (Ok None, w)) /\
  (refs <> [] -> get_program refs PyNone w = (Raise TypeError, w)).
Proof.
  intros Hvalid. split_and!.
  - intros l dp Hl.
    destruct (get_program_cases refs l dp w Hvalid Hl)
      as [(rs1 & p0 & rs2 & d & -> & Hrs1 & Hp & Hu)|Hall].
    + pose proof (get_program_found _ _ rs2 _ _ _ _ Hl Hrs1 Hp Hu) as Hrun.
      exists (Some p0). split_and!; [done| |].
      * intros p. split.
        -- intros [= <-]. by exists rs1, rs2, d.
        -- intros (rs1' & rs2' & d' & Heq & Hrs1' & Hp' & Hu').
           pose proof (get_program_found _ _ rs2' _ _ _ _ Hl Hrs1' Hp' Hu') as Hrun'.
           rewrite <- Heq, Hrun in Hrun'. by injection Hrun' as ->.
      * split; [done|]. intros Hall.
        pose proof (get_program_none _ _ _ _ Hl Hall) as Hrun'.
        rewrite Hrun in Hrun'. done.
    + pose proof (get_program_none _ _ _ _ Hl Hall) as Hrun.
      exists None. split_and!; [done| |done].
      intros p. split; [done|].
      intros (rs1' & rs2' & d' & Heq & Hrs1' & Hp' & Hu').
      pose proof (get_program_found _ _ rs2' _ _ _ _ Hl Hrs1' Hp' Hu') as Hrun'.
      rewrite <- Heq, Hrun in Hrun'. done.
  - done.
  - intros Hne. destruct Hvalid as [|r refs [d Hr] _]; [done|].
    unfold get_program. rewrite for_return_M_cons.
    unfold getitem_uuid, read_program, raise, mbind, M_bind. by rewrite Hr.
Qed.

Lemma get_program_first_with_uuid_witness :
  exists res,
    get_program [0; 1]%nat (PyProgressRef 0)
      (mkWorld (programs Run.world_ranked) [Scenario.progress_pc] [] [])
    = (Ok res, mkWorld (programs Run.world_ranked) [Scenario.progress_pc] [] []) /\
    res = Some 1%nat.
Proof.
  destruct (proj1 (get_program_first_with_uuid [0; 1]%nat
              (mkWorld (programs Run.world_ranked) [Scenario.progress_pc] [] [])
              ltac:(repeat constructor; eexists; reflexivity))
              0%nat Scenario.progress_pc eq_refl) as (res & Hrun & Hsome & _).
  exists res. split; [exact Hrun|].
  apply Hsome. exists [0%nat], [], (set_sort_revenue_order Scenario.program_pc 3).
  split_and!; try reflexivity.
  constructor; [|constructor]. eexists. split; [reflexivity|]. discriminate.
Defined.

Lemma handle_user_program_not_found_aux env should_commit clp cid records user w pps w1
    l dp cr c :
  meter_progress_call env user clp w = (Ok pps, w1) ->
  get_course_run_to_suggest pps cid w1
  = (Ok [PyProgressRef l; PyCourseRun cr; PyCourse c], w1) ->
  progress w1 !! l = Some dp ->
  Forall (other_uuid w1 (ProgramProgress.uuid dp)) clp ->
  handle_user env should_commit clp cid records user w = (Raise TypeError, w1).
Proof.
  intros Hmeter Hsel Hl Hall. unfold handle_user.
  rewrite (bind_ok _ _ _ _ _ Hmeter), (bind_ok _ _ _ _ _ Hsel). cbn [unpack3].
  unfold mbind at 1, M_bind at 1, mret at 1, M_ret at 1.
  cbn [truthy truthy_pyobj andb].
  by rewrite (bind_ok _ _ _ _ _ (get_program_none _ _ _ _ Hl Hall)).
Qed.

(** X2. When no program dict of the list has the uuid of the progress dict
    the selection returned, [get_program] gives [None] and [handle] passes it
    to [get_course_run], which raises [TypeError]: the run stops there, with
    and without [--no-commit], before any event or record. *)
Theorem handle_user_program_not_found env should_commit clp cid records user w pps w1
    l dp cr c :
  meter_progress_call env user clp w = (Ok pps, w1) ->
  get_course_run_to_suggest pps cid w1
  = (Ok [PyProgressRef l; PyCourseRun cr; PyCourse c], w1) ->
  progress w1 !! l = Some dp ->
  Forall (other_uuid w1 (ProgramProgress.uuid dp)) clp ->
  handle_user env should_commit clp cid records user w = (Raise TypeError, w1).
Proof.
  intros Hmeter Hsel Hl Hall.
  by apply (handle_user_program_not_found_aux env should_commit clp cid records user
              w pps w1 l dp cr c).
Qed.

Lemma handle_user_program_not_found_witness :
  handle_user Run.env_foreign false [1; 0]%nat "CS101" [] Run.alice Run.world_ranked
  = (Raise TypeError, mkWorld (programs Run.world_ranked) [Run.progress_foreign] [] []).
Proof.
  apply (handle_user_program_not_found Run.env_foreign false [1; 0]%nat "CS101" []
           Run.alice Run.world_ranked [0]%nat
           (mkWorld (programs Run.world_ranked) [Run.progress_foreign] [] [])
           0%nat Run.progress_foreign Scenario.run_cs202 Scenario.course_202).
  - vm_compute. reflexivity.
  - vm_compute. reflexivity.
  - reflexivity.
  - repeat constructor; eexists; (split; [reflexivity | discriminate]).
Defined.

(** ** [get_passed_course_to_users_maps] *)

Section DefaultDict.

Context {V : Type}.
Implicit Types (d : list (string * list V)) (k c : string) (u : V).

Lemma defaultdict_get_append c k u d :
  defaultdict_get c (defaultdict_append k u d)
  = if (k =? c)%string then defaultdict_get c d ++ [u] else defaultdict_get c d.
Proof.
  induction d as [|[k' us] d IH]; simpl.
  - destruct (String.eqb_spec k c); done.
  - destruct (String.eqb_spec k' k) as [->|Hk]; simpl.
    + destruct (String.eqb_spec k c); done.
    + rewrite IH. destruct (String.eqb_spec k' c) as [->|Hc]; [|done].
      destruct (String.eqb_spec k c); [congruence | done].
Qed.

Lemma defaultdict_append_keys c k u d :
  In c (map fst (defaultdict_append k u d)) <-> c = k \/ In c (map fst d).
Proof.
  induction d as [|[k' us] d IH]; simpl.
  - intuition congruence.
  - destruct (String.eqb_spec k' k) as [->|Hk]; simpl; [intuition congruence|].
    rewrite IH. tauto.
Qed.

Lemma defaultdict_append_NoDup k u d :
  List.NoDup (map fst d) -> List.NoDup (map fst (defaultdict_append k u d)).
Proof.
  induction d as [|[k' us] d IH]; simpl; intros Hnd.
  - constructor; [by intros [] | constructor].
  - destruct (String.eqb_spec k' k) as [->|Hk]; simpl; [done|].
    inversion Hnd as [|? ? Hnin Hnd']; subst. constructor; [|by apply IH].
    rewrite defaultdict_append_keys. intros [->|Hin]; done.
Qed.

Lemma defaultdict_get_item c (us : list V) d :
  List.NoDup (map fst d) -> In (c, us) d -> defaultdict_get c d = us.
Proof.
  induction d as [|[k' us'] d IH]; simpl; intros Hnd Hin; [done|].
  inversion Hnd as [|? ? Hnin Hnd']; subst.
  destruct Hin as [[= -> ->]|Hin].
  - by rewrite String.eqb_refl.
  - destruct (String.eqb_spec k' c) as [->|Hc]; [|by apply IH].
    exfalso. apply Hnin. apply in_map_iff. by exists (c, us).
Qed.

End DefaultDict.

Lemma get_passed_course_to_users_maps_unfold env :
  get_passed_course_to_users_maps env
  = (maps ← for_each_M (passed_yesterday env) (add_passing_grade env) [];
     _ ← LOGGER_info (LogPassingGrades (length (passed_yesterday env)) (today env - 1)
                        (length (passing_user_ids env)) (length maps));
     mret maps).
Proof. reflexivity. Qed.

Lemma distinct_In x l : In x (distinct l) <-> In x l.
Proof.
  induction l as [|y l IH]; simpl; [done|].
  rewrite filter_In, IH, negb_true_iff, Z.eqb_neq.
  destruct (decide (y = x)); intuition congruence.
Qed.

Lemma distinct_NoDup l : List.NoDup (distinct l).
Proof.
  induction l as [|y l IH]; simpl; [constructor|].
  constructor.
  - rewrite filter_In, negb_true_iff, Z.eqb_neq. tauto.
  - by apply List.NoDup_filter.
Qed.

Lemma user_map_lookup (us : list User.t) (m0 : gmap Z User.t) k u :
  foldl (fun m user => <[User.id user := user]> m) m0 us !! k = Some u ->
  (In u us /\ User.id u = k) \/ m0 !! k = Some u.
Proof.
  revert m0. induction us as [|x us IH]; simpl; intros m0 Hm; [by right|].
  destruct (IH _ Hm) as [[Hin Hid]|Hm0]; [left; tauto|].
  destruct (decide (User.id x = k)) as [<-|Hne].
  - rewrite lookup_insert_eq in Hm0. injection Hm0 as <-. left. tauto.
  - rewrite lookup_insert_ne in Hm0 by done. by right.
Qed.

Lemma user_map_is_Some (us : list User.t) (m0 : gmap Z User.t) k :
  (exists u, In u us /\ User.id u = k) \/ is_Some (m0 !! k) ->
  is_Some (foldl (fun m user => <[User.id user := user]> m) m0 us !! k).
Proof.
  revert m0. induction us as [|x us IH]; simpl; intros m0 H.
  - destruct H as [(u & [] & _)|H]; done.
  - apply IH. destruct H as [(u & [->|Hin] & Hid)|H].
    + right. rewrite <- Hid, lookup_insert_eq. by eexists.
    + left. by exists u.
    + right. destruct (decide (User.id x = k)) as [<-|Hne].
      * rewrite lookup_insert_eq. by eexists.
      * by rewrite lookup_insert_ne.
Qed.

(** The dict [user_id_to_user_map] holds rows of the user table under their
    id, and has the user of every grade passed the day before that has a row
    in the table. *)
Lemma user_id_to_user_map_Some env k u :
  user_id_to_user_map env !! k = Some u -> In u (users_table env) /\ User.id u = k.
Proof.
  intros H. apply user_map_lookup in H as [[Hin Hid]|H]; [|by rewrite lookup_empty in H].
  apply filter_In in Hin. tauto.
Qed.

Lemma user_id_to_user_map_grade env g :
  In g (passed_yesterday env) ->
  is_Some (user_id_to_user_map env !! PersistentCourseGrade.user_id g) <-> has_user env g.
Proof.
  intros Hg. split.
  - intros [u Hu]. apply user_id_to_user_map_Some in Hu. by exists u.
  - intros (u & Hin & Hid). apply user_map_is_Some. left. exists u. split; [|done].
    apply filter_In. split; [done|]. apply existsb_exists.
    exists (User.id u). split; [|apply Z.eqb_refl].
    unfold passing_user_ids. rewrite distinct_In, Hid. by apply in_map.
Qed.

Lemma add_passing_grade_ok env d g w :
  In g (passed_yesterday env) -> has_user env g ->
  exists u,
    In u (users_table env) /\ User.id u = PersistentCourseGrade.user_id g /\
    add_passing_grade env d g w
    = (Ok (defaultdict_append (PersistentCourseGrade.course_id g) u d), w).
Proof.
  intros Hg Hu. apply (user_id_to_user_map_grade env g Hg) in Hu as [u Hlook].
  exists u. destruct (user_id_to_user_map_Some _ _ _ Hlook) as [Hin Hid].
  split_and!; [done..|]. unfold add_passing_grade. by rewrite Hlook.
Qed.

Lemma passed_loop_ok env gs d w :
  Forall (fun g => In g (passed_yesterday env) /\ has_user env g) gs ->
  exists d',
    for_each_M gs (add_passing_grade env) d w = (Ok d', w) /\
    (List.NoDup (map fst d) -> List.NoDup (map fst d')) /\
    (forall c, In c (map fst d') <->
               In c (map fst d) \/
               exists g, In g gs /\ PersistentCourseGrade.course_id g = c) /\
    (forall c, exists us,
        defaultdict_get c d' = defaultdict_get c d ++ us /\
        Forall (fun u => In u (users_table env)) us /\
        map User.id us
        = map PersistentCourseGrade.user_id
            (List.filter (fun g => (PersistentCourseGrade.course_id g =? c)%string) gs)).
Proof.
  intros Hgs. revert d. induction Hgs as [|g gs [Hg Hu] _ IH]; intros d.
  - exists d. split_and!; [done..| |].
    + intros c. split; [tauto|]. intros [?|(g & [] & _)]. done.
    + intros c. exists []. by rewrite app_nil_r.
  - destruct (add_passing_grade_ok env d g w Hg Hu) as (u & Hin & Hid & Hstep).
    destruct (IH (defaultdict_append (PersistentCourseGrade.course_id g) u d))
      as (d' & Hrun & Hnd & Hkeys & Hget).
    exists d'. split_and!.
    + by rewrite for_each_M_cons, Hstep.
    + intros H. by apply Hnd, defaultdict_append_NoDup.
    + intros c. rewrite Hkeys, defaultdict_append_keys. split.
      * intros [[->|Hc]|(g' & Hg' & Hc)].
        -- right. exists g. split; [by left | done].
        -- by left.
        -- right. exists g'. split; [by right | done].
      * intros [Hc|(g' & [->|Hg'] & Hc)].
        -- left. by right.
        -- left. by left.
        -- right. by exists g'.
    + intros c. destruct (Hget c) as (us & Hus & Hall & Hids).
      rewrite defaultdict_get_append in Hus. simpl.
      destruct (PersistentCourseGrade.course_id g =? c)%string.
      * exists (u :: us). split_and!.
        -- by rewrite Hus, <- app_assoc.
        -- by constructor.
        -- simpl. by rewrite Hid, Hids.
      * by exists us.
Qed.

Lemma passed_loop_raise env gs d w :
  Forall (fun g => In g (passed_yesterday env)) gs ->
  Exists (fun g => ~ has_user env g) gs ->
  for_each_M gs (add_passing_grade env) d w = (Raise KeyError, w).
Proof.
  intros Hgs. revert d. induction Hgs as [|g gs Hg _ IH]; intros d Hex.
  - by apply Exists_nil in Hex.
  - rewrite for_each_M_cons. unfold add_passing_grade at 1.
    destruct (user_id_to_user_map env !! PersistentCourseGrade.user_id g) as [u|] eqn:Hlook.
    + cbn. apply IH. apply Exists_cons in Hex as [Hno|Hex]; [|done].
      exfalso. apply Hno, (user_id_to_user_map_grade env g Hg). by eexists.
    + done.
Qed.

Lemma Forall_In_self {A : Type} (l : list A) : Forall (fun x => In x l) l.
Proof. apply Forall_forall. intros x Hx. by apply list_elem_of_In. Qed.

(** The run of [get_passed_course_to_users_maps] and the keys of its dict. *)
Lemma passed_course_to_users_maps_ok_aux env w :
  Forall (has_user env) (passed_yesterday env) ->
  exists maps,
    get_passed_course_to_users_maps env w
    = (Ok maps,
       mkWorld (programs w) (progress w) (segment_calls w)
         (log w ++ [LogPassingGrades (length (passed_yesterday env)) (today env - 1)
                      (length (passing_user_ids env)) (length maps)])) /\
    (forall c, In c (map fst maps) <->
               exists g, In g (passed_yesterday env) /\
                         PersistentCourseGrade.course_id g = c).
Proof.
  intros Husers.
  destruct (passed_loop_ok env (passed_yesterday env) [] w)
    as (maps & Hrun & _ & Hkeys & _).
  { pose proof (Forall_In_self (passed_yesterday env)) as Hself.
    rewrite Forall_forall in Husers, Hself. apply Forall_forall. intros g Hg. eauto. }
  exists maps. split.
  - rewrite get_passed_course_to_users_maps_unfold, (bind_ok _ _ _ _ _ Hrun). reflexivity.
  - intros c. rewrite Hkeys. simpl. tauto.
Qed.

(** X3. When the user table has a row for the user of every grade passed the
    day before, [get_passed_course_to_users_maps] returns a dict whose keys
    are, without repetition, the courses passed the day before, and that
    holds under each course the users who passed it, one for each passing
    grade of the course in the order of the rows; older grades and grades not
    passed play no part.  It writes one log line and changes nothing else. *)
Theorem passed_course_to_users_maps_ok env w :
  Forall (has_user env) (passed_yesterday env) ->
  exists maps,
    get_passed_course_to_users_maps env w
    = (Ok maps,
       mkWorld (programs w) (progress w) (segment_calls w)
         (log w ++ [LogPassingGrades (length (passed_yesterday env)) (today env - 1)
                      (length (passing_user_ids env)) (length maps)])) /\
    List.NoDup (map fst maps) /\
    (forall c, In c (map fst maps) <->
               exists g, In g (passed_yesterday env) /\
                         PersistentCourseGrade.course_id g = c) /\
    (forall c us, In (c, us) maps ->
       Forall (fun u => In u (users_table env)) us /\
       map User.id us = map PersistentCourseGrade.user_id (passed_of env c)) /\
    List.NoDup (passing_user_ids env) /\
    (forall k, In k (passing_user_ids env) <->
               exists g, In g (passed_yesterday env) /\
                         PersistentCourseGrade.user_id g = k).
Proof.
  intros Husers.
  destruct (passed_loop_ok env (passed_yesterday env) [] w)
    as (maps & Hrun & Hnd & Hkeys & Hget).
  { pose proof (Forall_In_self (passed_yesterday env)) as Hself.
    rewrite Forall_forall in Husers, Hself. apply Forall_forall. intros g Hg. eauto. }
  specialize (Hnd (List.NoDup_nil _)).
  exists maps. split_and!.
  - rewrite get_passed_course_to_users_maps_unfold, (bind_ok _ _ _ _ _ Hrun). reflexivity.
  - done.
  - intros c. rewrite Hkeys. simpl. tauto.
  - intros c us Hin. destruct (Hget c) as (us' & Hus & Hall & Hids).
    rewrite (defaultdict_get_item _ _ _ Hnd Hin) in Hus. simpl in Hus. by subst.
  - apply distinct_NoDup.
  - intros k. unfold passing_user_ids. rewrite distinct_In, in_map_iff.
    split; intros (g & ? & ?); by exists g.
Qed.

Lemma passed_course_to_users_maps_ok_witness :
  exists maps,
    get_passed_course_to_users_maps Run.env_two initial_world
    = (Ok maps, mkWorld [] [] [] [LogPassingGrades 3 9 2 (length maps)]) /\
    maps = [("CS101", [Run.alice; Run.bob]); ("CS300", [Run.bob])].
Proof.
  destruct (passed_course_to_users_maps_ok Run.env_two initial_world) as (maps & Hrun & _).
  - repeat constructor; [exists Run.alice | exists Run.bob | exists Run.bob];
      (split; [simpl; tauto | reflexivity]).
  - exists maps. split; [exact Hrun|].
    vm_compute in Hrun. by injection Hrun as <-.
Defined.

(** X4. When a grade passed the day before belongs to a user without a row in
    the user table, [get_passed_course_to_users_maps] raises [KeyError]
    before it logs anything, and so does [handle], with and without
    [--no-commit]: nothing is fetched, sent or logged. *)
Theorem passed_grade_without_user env w :
  Exists (fun g => ~ has_user env g) (passed_yesterday env) ->
  get_passed_course_to_users_maps env w = (Raise KeyError, w) /\
  forall no_commit, handle env no_commit w = (Raise KeyError, w).
Proof.
  intros Hex.
  pose proof (passed_loop_raise env _ [] w (Forall_In_self _) Hex) as Hloop.
  assert (Hrun : get_passed_course_to_users_maps env w = (Raise KeyError, w)).
  { by rewrite get_passed_course_to_users_maps_unfold, (bind_raise _ _ _ _ _ Hloop). }
  split; [done|]. intros no_commit. unfold handle.
  by rewrite (bind_raise _ _ _ _ _ Hrun).
Qed.

Lemma passed_grade_without_user_witness :
  get_passed_course_to_users_maps Run.env_no_user initial_world
  = (Raise KeyError, initial_world) /\
  forall no_commit, handle Run.env_no_user no_commit initial_world
                    = (Raise KeyError, initial_world).
Proof.
  apply (passed_grade_without_user Run.env_no_user initial_world).
  apply Exists_cons_tl, Exists_cons_hd.
  intros (u & [<-|[]] & Hid). discriminate Hid.
Defined.

(** ** [emit_event] *)

(** However [emit_event] is called, it either raises and leaves the world as
    it was, or sends one event and writes one log line. *)
Lemma emit_event_outcome env user program scr sc completed w :
  (exists e, emit_event env user program scr sc completed w = (Raise e, w)) \/
  (exists props r,
      emit_event env user program scr sc completed w
      = (Ok tt, after_event w (Event.mk (User.id user) nudge_event props) r)).
Proof.
  unfold emit_event, after_event, nudge_event.
  destruct (get_enterprise_learner_data_from_db env user) as [|[ec] rest];
    cbn [truthy truthy_list head fmap option_fmap option_map
         EnterpriseLearner.enterprise_customer].
  all: unfold getitem_course_run, getitem_key, read_program, segment_track, LOGGER_info,
         raise, mbind, M_bind, mret, M_ret.
  all: repeat case_match; simplify_eq; eauto.
Qed.

(** X5. [emit_event] is all or nothing: whatever it is called with, either it
    raises and nothing has been sent, logged or written, or it ends normally
    having sent exactly one event, of the user and with the name of the
    nudge event, and written exactly one log line, the dicts being as before. *)
Theorem emit_event_all_or_nothing env user program scr sc completed w :
  match emit_event env user program scr sc completed w with
  | (Raise _, w') => w' = w
  | (Ok _, w') =>
      stores w' = stores w /\
      exists e r,
        segment_calls w' = segment_calls w ++ [e] /\
        log w' = log w ++ [r] /\
        Event.user_id e = User.id user /\
        Event.name e = "edx.bi.program.course-enrollment.nudge"
  end.
Proof.
  destruct (emit_event_outcome env user program scr sc completed w)
    as [(e & ->)|(props & r & ->)]; [done|].
  split; [done|]. by eexists _, _.
Qed.





Lemma emit_event_run env user l d cr c r w :
  programs w !! l = Some d ->
  emit_event env user (Some l) (PyCourseRun cr) (PyCourse c) (Some r) w =
  match recommended_course_url env user cr c with
  | Raise e => (Raise e, w)
  | Ok url =>
      match CourseRun.image cr with
      | None => (Raise AttributeError, w)
      | Some i => (Ok tt, after_event w (nudge_of user r d cr i url) (fired_of user r d cr))
      end
  end.
Proof.
  intros Hl. unfold emit_event, recommended_course_url, portal_customer.
  destruct (get_enterprise_learner_data_from_db env user) as [|[ec] rest];
    cbn [truthy truthy_list head fmap option_fmap option_map
         EnterpriseLearner.enterprise_customer].
  all: unfold getitem_course_run, getitem_key, read_program, segment_track, LOGGER_info,
         raise, mbind, M_bind, mret, M_ret.
  all: rewrite ?Hl; repeat case_match; simplify_eq; done.
Qed.



(** ** Events and records of a committing run *)

Lemma preserves_run {X A : Type} (part : World -> X) (m : M A) w o w' :
  preserves part m -> m w = (o, w') -> part w' = part w.
Proof. intros Hm Hrun. specialize (Hm w). by rewrite Hrun in Hm. Qed.

Lemma grown_refl records w w' :
  segment_calls w' = segment_calls w -> grown records w records w'.
Proof. intros H. exists [], []. by rewrite !app_nil_r. Qed.

Lemma grown_trans r1 w1 r2 w2 r3 w3 :
  grown r1 w1 r2 w2 -> grown r2 w2 r3 w3 -> grown r1 w1 r3 w3.
Proof.
  intros (rs & evs & -> & Hc & Hlen & Hn) (rs' & evs' & -> & Hc' & Hlen' & Hn').
  exists (rs ++ rs'), (evs ++ evs'). split_and!.
  - by rewrite app_assoc.
  - by rewrite Hc', Hc, app_assoc.
  - rewrite !length_app. lia.
  - by apply Forall_app.
Qed.

Lemma grown_sink records w records' w' w0 w1 :
  segment_calls w = segment_calls w0 -> segment_calls w1 = segment_calls w' ->
  grown records w records' w' -> grown records w0 records' w1.
Proof.
  intros H0 H1 (rs & evs & -> & Hc & Hlen & Hn). exists rs, evs.
  split_and!; [done| |done..]. congruence.
Qed.

Lemma for_each_M_grown {A : Type} (body : list string -> A -> M (list string)) xs :
  (forall s x w s' w', body s x w = (Ok s', w') -> grown s w s' w') ->
  forall s w s' w', for_each_M xs body s w = (Ok s', w') -> grown s w s' w'.
Proof.
  intros Hbody. induction xs as [|x xs IH]; intros s w s' w' Hrun.
  - injection Hrun as <- <-. by apply grown_refl.
  - cbn [for_each_M] in Hrun. apply bind_ok_inv in Hrun as (s1 & w1 & Hx & Hrest).
    eapply grown_trans; [by eapply Hbody | by eapply IH].
Qed.

Lemma handle_user_grown env clp cid records user w records' w' :
  handle_user env true clp cid records user w = (Ok records', w') ->
  grown records w records' w'.
Proof.
  unfold handle_user. intros Hrun.
  apply bind_ok_inv in Hrun as (pps & w1 & Hmeter & Hrun).
  apply bind_ok_inv in Hrun as (t & w2 & Hsel & Hrun).
  apply bind_ok_inv in Hrun as ([[spp scr] sc] & w3 & Hunpack & Hrun).
  pose proof (preserves_run _ _ _ _ _ (sink_meter_progress_call env user clp) Hmeter) as H1.
  pose proof (preserves_run _ _ _ _ _ (sink_get_course_run_to_suggest pps cid) Hsel) as H2.
  assert (w3 = w2) as ->.
  { destruct t as [|a [|b [|c [|? ?]]]];
      unfold unpack3, raise, mret, M_ret in Hunpack; by simplify_eq. }
  destruct (truthy scr && truthy sc).
  - apply bind_ok_inv in Hrun as (p & w4 & Hprog & Hrun).
    apply bind_ok_inv in Hrun as (r & w5 & Hcr & Hrun).
    apply bind_ok_inv in Hrun as ([] & w6 & Hemit & Hrun).
    apply bind_ok_inv in Hrun as (k & w7 & Hkey & Hrun).
    pose proof (preserves_run _ _ _ _ _ (sink_get_program clp spp) Hprog) as H4.
    pose proof (preserves_run _ _ _ _ _ (sink_get_course_run p cid) Hcr) as H5.
    assert (w7 = w6) as ->.
    { destruct scr; unfold getitem_key, raise, mret, M_ret in Hkey; by simplify_eq. }
    injection Hrun as <- <-.
    destruct (emit_event_outcome env user p scr sc r w5)
      as [(e & He)|(props & lr & He)]; rewrite He in Hemit; [done|].
    injection Hemit as <-.
    eexists [_], [Event.mk (User.id user) nudge_event props].
    split_and!; [done| |done|by repeat constructor].
    simpl. congruence.
  - injection Hrun as <- <-. apply grown_refl. congruence.
Qed.

Lemma handle_course_grown env records item w records' w' :
  handle_course env true records item w = (Ok records', w') ->
  grown records w records' w'.
Proof.
  unfold handle_course. destruct item as [cid users]. intros Hrun.
  apply bind_ok_inv in Hrun as (refs & w1 & Hget & Hrun).
  apply bind_ok_inv in Hrun as (sorted & w2 & Hsort & Hrun).
  pose proof (preserves_run _ _ _ _ _ (sink_new_programs _) Hget) as H1.
  pose proof (preserves_run _ _ _ _ _ (sink_sort_programs refs) Hsort) as H2.
  destruct (truthy sorted).
  - eapply (grown_sink _ w2); [congruence|done|].
    eapply for_each_M_grown; [|exact Hrun].
    intros s x v s' v'. apply handle_user_grown.
  - injection Hrun as <- <-. apply grown_refl. congruence.
Qed.

(** X7. In a committing run of [handle] that ends normally, the events sent
    are nudge events, one for each record of the final log line: the number
    of mails the command logs as sent is the number of events the sink has
    received from it. *)
Theorem handle_sends_one_event_per_record env w w' :
  handle env false w = (Ok tt, w') ->
  exists records evs,
    segment_calls w' = segment_calls w ++ evs /\
    last (log w') = Some (LogEmailsSent (length records) records) /\
    length evs = length records /\
    Forall (fun e => Event.name e = "edx.bi.program.course-enrollment.nudge") evs.
Proof.
  unfold handle. cbn [negb]. intros Hrun.
  apply bind_ok_inv in Hrun as (maps & w1 & Hmaps & Hrun).
  apply bind_ok_inv in Hrun as (records & w2 & Hloop & Hrun).
  pose proof (preserves_run _ _ _ _ _ (sink_get_passed_course_to_users_maps env) Hmaps) as H1.
  apply (for_each_M_grown (handle_course env true)) in Hloop
    as (rs & evs & -> & Hc & Hlen & Hn);
    [|intros s x v s' v'; apply handle_course_grown].
  unfold LOGGER_info in Hrun. injection Hrun as <-.
  exists rs, evs. simpl. split_and!; [congruence | apply last_snoc | done | done].
Qed.

Lemma handle_sends_one_event_per_record_witness :
  exists records evs,
    segment_calls (handle Run.env false initial_world).2
    = segment_calls initial_world ++ evs /\
    last (log (handle Run.env false initial_world).2)
    = Some (LogEmailsSent (length records) records) /\
    length evs = length records /\
    Forall (fun e => Event.name e = "edx.bi.program.course-enrollment.nudge") evs.
Proof.
  apply (handle_sends_one_event_per_record Run.env initial_world).
  vm_compute. reflexivity.
Defined.

(** ** Courses without programs *)

Lemma sort_programs_nil w : sort_programs [] w = (Ok [], w).
Proof. reflexivity. Qed.

Lemma handle_course_no_programs env should_commit records cid users w :
  catalog_programs env cid = [] ->
  handle_course env should_commit records (cid, users) w = (Ok records, w).
Proof.
  intros Hcat. unfold handle_course, get_programs, new_programs, mbind, M_bind.
  rewrite Hcat. cbn. rewrite app_nil_r. by destruct w.
Qed.

Lemma handle_loop_no_programs env should_commit (maps : list (string * list User.t))
    records w :
  Forall (fun item => catalog_programs env item.1 = []) maps ->
  for_each_M maps (handle_course env should_commit) records w = (Ok records, w).
Proof.
  induction 1 as [|[cid users] maps Hcat _ IH]; [done|].
  by rewrite for_each_M_cons, (handle_course_no_programs _ _ _ _ _ _ Hcat).
Qed.

(** X8. When every grade passed the day before belongs to a user who has a
    row in the user table, and the catalog has no program for any course
    passed the day before (in particular when nothing was passed the day
    before), [handle] ends normally with no record: it asks the progress
    meter nothing, creates no dict, sends no event, and writes its two log
    lines, the last one with a count of 0. *)
Theorem handle_without_linked_programs env no_commit w :
  Forall (has_user env) (passed_yesterday env) ->
  Forall (fun g => catalog_programs env (PersistentCourseGrade.course_id g) = [])
    (passed_yesterday env) ->
  exists courses,
    handle env no_commit w
    = (Ok tt,
       mkWorld (programs w) (progress w) (segment_calls w)
         (log w ++ [LogPassingGrades (length (passed_yesterday env)) (today env - 1)
                      (length (passing_user_ids env)) courses;
                    LogEmailsSent 0 []])).
Proof.
  intros Husers Hcat.
  destruct (passed_course_to_users_maps_ok_aux env w Husers)
    as (maps & Hrun & Hkeys).
  assert (Hmaps : Forall (fun item : string * list User.t =>
                            catalog_programs env item.1 = []) maps).
  { apply Forall_forall. intros [c us] Hin%list_elem_of_In. simpl.
    destruct (proj1 (Hkeys c)) as (g & Hg & <-).
    { apply in_map_iff. by exists (c, us). }
    rewrite Forall_forall in Hcat. by apply Hcat, list_elem_of_In. }
  exists (length maps). unfold handle. rewrite (bind_ok _ _ _ _ _ Hrun).
  rewrite (bind_ok _ _ _ _ _ (handle_loop_no_programs env (negb no_commit) maps [] _ Hmaps)).
  unfold LOGGER_info. simpl. by rewrite <- app_assoc.
Qed.

Lemma handle_without_linked_programs_witness :
  exists courses,
    handle Run.env_no_programs false initial_world
    = (Ok tt,
       mkWorld [] [] []
         [LogPassingGrades (length (passed_yesterday Run.env_no_programs)) 9
            (length (passing_user_ids Run.env_no_programs)) courses;
          LogEmailsSent 0 []]).
Proof.
  apply (handle_without_linked_programs Run.env_no_programs false initial_world).
  - repeat constructor; [exists Run.alice | exists Run.bob | exists Run.bob];
      (split; [simpl; tauto | reflexivity]).
  - repeat constructor.
Defined.

(** ** Ranking twice *)

Lemma sort_by_key_sorted_id {A : Type} (l : list (Z * A)) :
  StronglySorted key_le l -> sort_by_key l = l.
Proof.
  induction 1 as [|x l Hl IH Hx]; [done|].
  simpl. rewrite IH. destruct l as [|y l]; [done|]. simpl.
  inversion Hx as [|? ? Hxy _]; subst. unfold key_le in Hxy.
  apply Z.leb_le in Hxy. by rewrite Hxy.
Qed.

Lemma keyed_snd_id (rk : nat -> Z) (s : list (Z * nat)) :
  Forall (fun x => x.1 = rk x.2) s -> map (fun l => (rk l, l)) (map snd s) = s.
Proof.
  induction 1 as [|[k l] s Hx _ IH]; [done|]. simpl in *. by rewrite IH, Hx.
Qed.

(** X9. Ranking is idempotent: [sort_programs] applied to the list it has
    returned returns that list again and writes nothing new into the dicts. *)
Theorem sort_programs_idempotent w refs out w1 :
  Forall (fun l => is_Some (programs w !! l)) refs ->
  sort_programs refs w = (Ok out, w1) ->
  sort_programs out w1 = (Ok out, w1).
Proof.
  intros Hvalid Hrun.
  destruct (sort_programs_run refs w Hvalid) as (ps' & Hrun' & Hlen & Hlook).
  rewrite Hrun in Hrun'. injection Hrun' as -> ->.
  set (ks := map (fun l => (program_rank w l, l)) refs) in *.
  set (w1 := mkWorld ps' (progress w) (segment_calls w) (log w)).
  assert (Hks : Forall (fun x => x.1 = program_rank w x.2) (sort_by_key ks)).
  { rewrite sort_by_key_perm. apply keyed_list_ok. }
  assert (Hin : forall k, k ∈ map snd (sort_by_key ks) -> k ∈ refs).
  { intros k Hk. apply list_elem_of_In in Hk. apply list_elem_of_In.
    eapply Permutation_in; [|exact Hk].
    etransitivity; [apply Permutation_map, sort_by_key_perm|].
    unfold ks. by rewrite snd_keyed_list. }
  assert (Hvalid1 : Forall (fun l => is_Some (programs w1 !! l)) (map snd (sort_by_key ks))).
  { apply Forall_forall. intros k Hk. simpl. rewrite Hlook, decide_True by auto.
    rewrite Forall_forall in Hvalid. destruct (Hvalid k (Hin k Hk)) as [d ->]. by eexists. }
  destruct (sort_programs_run _ w1 Hvalid1) as (ps'' & Hrun1 & Hlen1 & Hlook1).
  rewrite Hrun1. f_equal.
  - f_equal.
    rewrite (map_ext _ (fun l => (program_rank w l, l)))
      by (intros l; f_equal; apply (program_rank_ranked w ps' refs l Hlook)).
    rewrite (keyed_snd_id _ _ Hks). f_equal.
    apply sort_by_key_sorted_id, sort_by_key_sorted.
  - unfold w1. simpl. f_equal. apply list_eq. intros k.
    rewrite Hlook1. simpl. destruct (decide (k ∈ map snd (sort_by_key ks))) as [Hk|]; [|done].
    rewrite Hlook, decide_True by auto. by destruct (programs w !! k).
Qed.

Lemma sort_programs_idempotent_witness :
  sort_programs [1; 0]%nat (sort_programs [0; 1]%nat world_catalog).2
  = (Ok [1; 0]%nat, (sort_programs [0; 1]%nat world_catalog).2).
Proof.
  apply (sort_programs_idempotent world_catalog [0; 1]%nat).
  - repeat constructor; eexists; reflexivity.
  - vm_compute. reflexivity.
Defined.

(** ** A learner for whom the run fails *)

Lemma for_each_M_app {A S : Type} (xs ys : list A) (body : S -> A -> M S) s w :
  for_each_M (xs ++ ys) body s w =
  match for_each_M xs body s w with
  | (Ok s', w') => for_each_M ys body s' w'
  | (Raise e, w') => (Raise e, w')
  end.
Proof.
  revert s w. induction xs as [|x xs IH]; intros s w; [done|].
  simpl app. rewrite !for_each_M_cons. destruct (body s x w) as [[s'|e] w']; [|done].
  apply IH.
Qed.

(** X10. One learner's failure ends the run for the learners after them:
    when [handle] raises on the learners of a course, it raises the same way,
    with the same events sent, however many learners follow in the list;
    none of them is looked at. *)
Theorem handle_course_stops_at_failure env should_commit records cid users e w w' :
  handle_course env should_commit records (cid, users) w = (Raise e, w') ->
  forall later,
    handle_course env should_commit records (cid, users ++ later) w = (Raise e, w').
Proof.
  unfold handle_course. intros Hrun later.
  unfold mbind, M_bind in *.
  destruct (get_programs env cid w) as [[refs|e1] w1]; [|done].
  destruct (sort_programs refs w1) as [[sorted|e2] w2]; [|done].
  destruct (truthy sorted); [|done].
  by rewrite for_each_M_app, Hrun.
Qed.

Lemma handle_course_stops_at_failure_witness :
  handle_course Run.env_nothing false [] ("CS101", [Run.alice] ++ [Run.bob]) initial_world
  = (Raise ValueError,
     (handle_course Run.env_nothing false [] ("CS101", [Run.alice]) initial_world).2).
Proof.
  apply (handle_course_stops_at_failure Run.env_nothing false [] "CS101" [Run.alice]
           ValueError initial_world).
  vm_compute. reflexivity.
Defined.

(** X11. Whenever the progress dicts of a learner offer no eligible course
    run, the selection returns the tuple [(None, None)] and the unpacking
    into three names in [handle] raises [ValueError], with and without
    [--no-commit]; nothing is sent or recorded for the learner. *)
Theorem handle_user_raises_without_suggestion env should_commit clp cid records user
    w pps w1 :
  meter_progress_call env user clp w = (Ok pps, w1) ->
  Forall (no_suggestion_in w1 cid) pps ->
  get_course_run_to_suggest pps cid w1 = (Ok [PyNone; PyNone], w1) /\
  handle_user env should_commit clp cid records user w = (Raise ValueError, w1) /\
  segment_calls w1 = segment_calls w.
Proof.
  intros Hmeter Hall. split_and!.
  - by apply get_course_run_to_suggest_nothing.
  - by eapply handle_user_nothing.
  - by eapply preserves_run; [apply sink_meter_progress_call|].
Qed.

Lemma handle_user_raises_without_suggestion_witness :
  get_course_run_to_suggest [0; 1]%nat "CS101"
    (mkWorld (programs Run.world_ranked)
       [Scenario.progress_pc; Scenario.progress_xs_started] [] [])
  = (Ok [PyNone; PyNone],
     mkWorld (programs Run.world_ranked)
       [Scenario.progress_pc; Scenario.progress_xs_started] [] []) /\
  handle_user Run.env_nothing true [1; 0]%nat "CS101" [] Run.alice Run.world_ranked
  = (Raise ValueError,
     mkWorld (programs Run.world_ranked)
       [Scenario.progress_pc; Scenario.progress_xs_started] [] []) /\
  segment_calls (mkWorld (programs Run.world_ranked)
                   [Scenario.progress_pc; Scenario.progress_xs_started] [] [])
  = segment_calls Run.world_ranked.
Proof.
  apply (handle_user_raises_without_suggestion Run.env_nothing true [1; 0]%nat "CS101" []
           Run.alice Run.world_ranked [0; 1]%nat).
  - vm_compute. reflexivity.
  - constructor; [|constructor; [|constructor]].
    + exists Scenario.progress_pc. split; [reflexivity|]. repeat constructor.
    + exists Scenario.progress_xs_started. split; [reflexivity|]. constructor.
Defined.

(** ** From the ranking to the suggestion *)

Lemma mapM_read_program_run refs w :
  Forall (fun l => is_Some (programs w !! l)) refs ->
  exists ds,
    mapM read_program refs w = (Ok ds, w) /\
    Forall2 (fun l d => programs w !! l = Some d) refs ds.
Proof.
  induction 1 as [|l refs [d Hl] _ (ds & Hrun & Hds)].
  - by exists [].
  - exists (d :: ds). split; [|by constructor].
    rewrite mapM_cons. unfold read_program at 1. by rewrite Hl, Hrun.
Qed.

Lemma meter_progress_call_run env user refs w ds :
  mapM read_program refs w = (Ok ds, w) ->
  meter_progress_call env user refs w
  = (Ok (seq (length (progress w)) (length (meter_progress env user ds))),
     mkWorld (programs w) (progress w ++ meter_progress env user ds)
             (segment_calls w) (log w)).
Proof. intros Hds. unfold meter_progress_call. by rewrite (bind_ok _ _ _ _ _ Hds). Qed.

Lemma sort_programs_sorted refs w out w1 :
  Forall (fun l => is_Some (programs w !! l)) refs ->
  sort_programs refs w = (Ok out, w1) ->
  StronglySorted (fun a b => (program_rank w a <= program_rank w b)%Z) out /\
  Forall (fun l => is_Some (programs w1 !! l)) out /\
  progress w1 = progress w.
Proof.
  intros Hvalid Hrun.
  destruct (sort_programs_run refs w Hvalid) as (ps' & Hrun' & Hlen & Hlook).
  rewrite Hrun in Hrun'. injection Hrun' as -> ->.
  set (ks := map (fun l => (program_rank w l, l)) refs).
  assert (Hks : Forall (fun x => x.1 = program_rank w x.2) (sort_by_key ks)).
  { rewrite sort_by_key_perm. apply keyed_list_ok. }
  split_and!; [|  |done].
  - apply sorted_snd_keyed; [done|]. apply sort_by_key_sorted.
  - assert (Hperm : map snd (sort_by_key ks) ≡ₚ refs).
    { etransitivity; [apply Permutation_map, sort_by_key_perm|].
      unfold ks. by rewrite snd_keyed_list. }
    rewrite Hperm. eapply Forall_impl; [exact Hvalid|]. intros l Hl. simpl.
    apply lookup_lt_is_Some. rewrite Hlen. by apply lookup_lt_is_Some.
Qed.

(** X12. From the ranking to the suggestion.  When the meter answers program
    by program in the order it is asked, the progress dict that
    [get_course_run_to_suggest] returns after [sort_programs] is the one of a
    program whose rank is the best among the programs that have an eligible
    course run to offer: no program with something to suggest ranks before
    the one the suggestion comes from. *)
Theorem suggestion_from_best_rank env user cid refs w sorted w1 pps w2 l cr c :
  Forall (fun r => is_Some (programs w !! r)) refs ->
  sort_programs refs w = (Ok sorted, w1) ->
  (forall ds, Forall2 (fun r d => programs w1 !! r = Some d) sorted ds ->
              meter_in_order env user ds) ->
  meter_progress_call env user sorted w1 = (Ok pps, w2) ->
  get_course_run_to_suggest pps cid w2
  = (Ok [PyProgressRef l; PyCourseRun cr; PyCourse c], w2) ->
  exists i p d dp,
    pps !! i = Some l /\ sorted !! i = Some p /\
    programs w2 !! p = Some d /\ progress w2 !! l = Some dp /\
    ProgramProgress.uuid dp = Program.uuid d /\
    forall j l' p' dp',
      pps !! j = Some l' -> sorted !! j = Some p' -> progress w2 !! l' = Some dp' ->
      ~ none_eligible cid (ProgramProgress.not_started dp') ->
      (program_rank w p <= program_rank w p')%Z.
Proof.
  intros Hvalid Hsort Hmeter Hcall Hsel.
  destruct (sort_programs_sorted _ _ _ _ Hvalid Hsort) as (Hsorted & Hvalid1 & Hprog).
  destruct (mapM_read_program_run sorted w1 Hvalid1) as (ds & Hds & Hrefs).
  rewrite (meter_progress_call_run env user sorted w1 ds Hds) in Hcall.
  injection Hcall as <- <-.
  specialize (Hmeter ds Hrefs). unfold meter_in_order in Hmeter.
  set (out := meter_progress env user ds) in *.
  set (n := length (progress w1)) in *.
  apply get_course_run_to_suggest_found in Hsel
    as (ls1 & ls2 & dp & Hpps & Hls1 & Hl & Hfirst).
  set (i := length ls1).
  assert (Hi : seq n (length out) !! i = Some l).
  { rewrite Hpps. by apply list_lookup_middle. }
  apply lookup_seq in Hi as [-> Hilt].
  assert (Hout : out !! i = Some dp).
  { simpl in Hl. rewrite lookup_app_r in Hl by (unfold n; lia).
    by replace (n + i - length (progress w1))%nat with i in Hl by (unfold n; lia). }
  destruct (Forall2_lookup_r _ _ _ _ _ Hmeter Hout) as (d & Hd & Hu).
  destruct (Forall2_lookup_r _ _ _ _ _ Hrefs Hd) as (p & Hp & Hpd).
  exists i, p, d, dp. split_and!; try done.
  { rewrite Hpps. by apply list_lookup_middle. }
  intros j l' p' dp' Hj Hp' Hl' Hel.
  destruct (decide (j < i)%nat) as [Hlt|Hge].
  - exfalso. apply Hel.
    rewrite Hpps, lookup_app_l in Hj by done.
    apply list_elem_of_lookup_2 in Hj. rewrite Forall_forall in Hls1.
    destruct (Hls1 l' Hj) as (d' & Hd' & Hnone). congruence.
  - destruct (decide (j = i)) as [->|Hne]; [by simplify_eq|].
    assert (i < j)%nat as Hij by lia.
    apply (StronglySorted_lookup_lt _ _ _ _ _ _ Hsorted Hij Hp Hp').
Qed.

Lemma suggestion_from_best_rank_witness :
  exists i p d dp,
    [0; 1]%nat !! i = Some 1%nat /\ [1; 0]%nat !! i = Some p /\
    programs (meter_progress_call Run.env Run.alice [1; 0]%nat Run.world_ranked).2 !! p
    = Some d /\
    progress (meter_progress_call Run.env Run.alice [1; 0]%nat Run.world_ranked).2 !! 1%nat
    = Some dp /\
    ProgramProgress.uuid dp = Program.uuid d /\
    forall j l' p' dp',
      [0; 1]%nat !! j = Some l' -> [1; 0]%nat !! j = Some p' ->
      progress (meter_progress_call Run.env Run.alice [1; 0]%nat Run.world_ranked).2 !! l'
      = Some dp' ->
      ~ none_eligible "CS101" (ProgramProgress.not_started dp') ->
      (program_rank world_catalog p <= program_rank world_catalog p')%Z.
Proof.
  apply (suggestion_from_best_rank Run.env Run.alice "CS101" [0; 1]%nat world_catalog
           [1; 0]%nat Run.world_ranked [0; 1]%nat
           (meter_progress_call Run.env Run.alice [1; 0]%nat Run.world_ranked).2
           1%nat Scenario.run_cs202 Scenario.course_202).
  - repeat constructor; eexists; reflexivity.
  - vm_compute. reflexivity.
  - intros ds Hds.
    inversion Hds as [|? d1 ? ds1 H1 Hds1]; subst.
    inversion Hds1 as [|? d2 ? ds2 H2 Hds2]; subst.
    inversion Hds2; subst.
    injection H1 as <-. injection H2 as <-.
    repeat constructor.
  - vm_compute. reflexivity.
  - vm_compute. reflexivity.
Defined.

(** ** The event of a match *)

(** X13. The event of a committing run describes the match.  When [handle]
    ends normally for a learner with a suggestion, it has appended one record
    and sent one event: the event is of the learner; its program type and
    title are those of the first program dict of the list with the uuid of
    the progress dict selected; its first course name is the title of the
    first course run of that program whose key is the id of the completed
    course; its second course name, description and image are those of the
    course run selected; its link is the one computed for that run and its
    course. *)
Theorem handle_user_event_of_match env clp cid records user w pps w1 l cr c records' w' :
  meter_progress_call env user clp w = (Ok pps, w1) ->
  Forall (fun r => is_Some (programs w1 !! r)) clp ->
  get_course_run_to_suggest pps cid w1
  = (Ok [PyProgressRef l; PyCourseRun cr; PyCourse c], w1) ->
  handle_user env true clp cid records user w = (Ok records', w') ->
  exists dp p d r i url,
    progress w1 !! l = Some dp /\
    first_with_uuid w1 (ProgramProgress.uuid dp) clp p d /\
    first_run_with_key d cid r /\
    CourseRun.image cr = Some i /\
    recommended_course_url env user cr c = Ok url /\
    records' = records ++ [email_sent_record user cid (CourseRun.key cr)] /\
    w' = after_event w1 (nudge_of user r d cr i url) (fired_of user r d cr).
Proof.
  intros Hmeter Hvalid Hsel Hrun.
  pose proof Hsel as (ls1 & ls2 & dp & _ & _ & Hl & _)%get_course_run_to_suggest_found.
  destruct (get_program_cases clp l dp w1 Hvalid Hl)
    as [(rs1 & p & rs2 & d & -> & Hrs1 & Hp & Hu)|Hall].
  - pose proof (get_program_found _ _ rs2 _ _ _ _ Hl Hrs1 Hp Hu) as Hprog.
    assert (Hcr : get_course_run (Some p) cid w1
                  = (Ok (find_course_run (Program.courses d) cid), w1)).
    { unfold get_course_run, read_program, mbind, M_bind. by rewrite Hp. }
    rewrite (handle_user_match env true _ _ records _ _ _ _ _ _ _ _ _
               Hmeter Hsel Hprog Hcr) in Hrun.
    destruct (find_course_run (Program.courses d) cid) as [r|] eqn:Hfind.
    + apply find_course_run_Some in Hfind.
      apply bind_ok_inv in Hrun as ([] & w2 & Hemit & Hret).
      injection Hret as <- <-.
      rewrite (emit_event_run env user p d cr c r w1 Hp) in Hemit.
      destruct (recommended_course_url env user cr c) as [url|e]; [|done].
      destruct (CourseRun.image cr) as [i|]; [|done].
      injection Hemit as <-.
      exists dp, p, d, r, i, url. split_and!; try done.
      by exists rs1, rs2.
    + exfalso. apply bind_ok_inv in Hrun as ([] & w2 & Hemit & _).
      destruct (emit_event_None env user (Some p) (PyCourseRun cr) (PyCourse c) w1)
        as [e He].
      by rewrite He in Hemit.
  - exfalso.
    pose proof (handle_user_program_not_found_aux env true clp cid records user w pps w1
                  l dp cr c Hmeter Hsel Hl Hall) as Hraise.
    by rewrite Hraise in Hrun.
Qed.

Lemma handle_user_event_of_match_witness :
  exists dp p d r i url,
    progress (meter_progress_call Run.env Run.alice [1; 0]%nat Run.world_ranked).2 !! 1%nat
    = Some dp /\
    first_with_uuid (meter_progress_call Run.env Run.alice [1; 0]%nat Run.world_ranked).2
      (ProgramProgress.uuid dp) [1; 0]%nat p d /\
    first_run_with_key d "CS101" r /\
    CourseRun.image Scenario.run_cs202 = Some i /\
    recommended_course_url Run.env Run.alice Scenario.run_cs202 Scenario.course_202
    = Ok url /\
    (handle_user Run.env true [1; 0]%nat "CS101" [] Run.alice Run.world_ranked).1
    = Ok ([] ++ [email_sent_record Run.alice "CS101" (CourseRun.key Scenario.run_cs202)]) /\
    (handle_user Run.env true [1; 0]%nat "CS101" [] Run.alice Run.world_ranked).2
    = after_event (meter_progress_call Run.env Run.alice [1; 0]%nat Run.world_ranked).2
        (nudge_of Run.alice r d Scenario.run_cs202 i url)
        (fired_of Run.alice r d Scenario.run_cs202).
Proof.
  destruct (handle_user_event_of_match Run.env [1; 0]%nat "CS101" [] Run.alice
              Run.world_ranked [0; 1]%nat
              (meter_progress_call Run.env Run.alice [1; 0]%nat Run.world_ranked).2
              1%nat Scenario.run_cs202 Scenario.course_202
              ([] ++ [email_sent_record Run.alice "CS101" (CourseRun.key Scenario.run_cs202)])
              (handle_user Run.env true [1; 0]%nat "CS101" [] Run.alice Run.world_ranked).2)
    as (dp & p & d & r & i & url & H1 & H2 & H3 & H4 & H5 & H6 & H7).
  - vm_compute. reflexivity.
  - repeat constructor; eexists; reflexivity.
  - vm_compute. reflexivity.
  - vm_compute. reflexivity.
  - exists dp, p, d, r, i, url. split_and!; done.
Defined.

(** * The run with [--no-commit], learner by learner *)

(** ** [sorted] and what the references stand for *)

Section SortFollows.

Context {A B : Type} (R : A -> B -> Prop).

Lemma insert_by_key_Forall2 (x : Z * A) (y : Z * B) l1 l2 :
  keyed_rel R x y -> Forall2 (keyed_rel R) l1 l2 ->
  Forall2 (keyed_rel R) (insert_by_key x l1) (insert_by_key y l2).
Proof.
  intros Hxy Hl. induction Hl as [|a b l1 l2 Hab Hl IH]; simpl.
  - constructor; [done | constructor].
  - destruct (proj1 Hxy), (proj1 Hab).
    destruct (x.1 <=? a.1)%Z.
    + constructor; [done|]. by constructor.
    + by constructor.
Qed.

Lemma sort_by_key_Forall2 (l1 : list (Z * A)) (l2 : list (Z * B)) :
  Forall2 (keyed_rel R) l1 l2 -> Forall2 (keyed_rel R) (sort_by_key l1) (sort_by_key l2).
Proof.
  induction 1 as [|x y l1 l2 Hxy Hl IH]; simpl; [constructor|].
  by apply insert_by_key_Forall2.
Qed.

Lemma sorted_payloads_Forall2 (k1 : A -> Z) (k2 : B -> Z) (g : B -> B) l1 l2 :
  Forall2 (fun a b => k1 a = k2 b /\ R a (g b)) l1 l2 ->
  Forall2 R (map snd (sort_by_key (map (fun a => (k1 a, a)) l1)))
            (map snd (sort_by_key (map (fun b => (k2 b, g b)) l2))).
Proof.
  intros Hl.
  assert (Hk : Forall2 (keyed_rel R) (map (fun a => (k1 a, a)) l1)
                                     (map (fun b => (k2 b, g b)) l2)).
  { induction Hl as [|a b l1 l2 [Hab Hr] _ IH]; simpl; constructor; [by split | done]. }
  apply sort_by_key_Forall2 in Hk.
  induction Hk as [|x y s1 s2 [_ Hr] _ IH]; simpl; by constructor.
Qed.

End SortFollows.

Lemma mapM_read_program_Forall2 refs ds w :
  Forall2 (fun l d => programs w !! l = Some d) refs ds ->
  mapM read_program refs w = (Ok ds, w).
Proof.
  induction 1 as [|l d refs ds Hl _ IH]; [done|].
  rewrite mapM_cons. unfold read_program at 1. by rewrite Hl, IH.
Qed.

(** [get_program] finds a program dict exactly when one of the dicts has the
    uuid. *)
Lemma get_program_Forall2 refs ds l pp w :
  Forall2 (fun r d => programs w !! r = Some d) refs ds ->
  progress w !! l = Some pp ->
  if existsb (fun d => (Program.uuid d =? ProgramProgress.uuid pp)%string) ds
  then exists p d, get_program refs (PyProgressRef l) w = (Ok (Some p), w) /\
                   programs w !! p = Some d
  else get_program refs (PyProgressRef l) w = (Ok None, w).
Proof.
  intros Hrefs Hl. induction Hrefs as [|r d refs ds Hr _ IH]; [done|].
  rewrite (get_program_cons _ _ _ _ _ Hl), Hr. cbn [existsb].
  destruct (Program.uuid d =? ProgramProgress.uuid pp)%string; [|exact IH].
  by exists r, d.
Qed.

(** ** The selection over the progress dicts the meter has just answered *)

Lemma fresh_no_suggestion w cid pre o1 rest :
  progress w = pre ++ o1 ++ rest ->
  Forall (fun pp => suggest_in_courses cid (ProgramProgress.not_started pp) = None) o1 ->
  Forall (no_suggestion_in w cid) (seq (length pre) (length o1)).
Proof.
  intros Hw Hnone. apply Forall_forall. intros l [Hge Hlt]%elem_of_seq.
  destruct (lookup_lt_is_Some_2 o1 (l - length pre)) as [pp Hpp]; [lia|].
  exists pp. split.
  - rewrite Hw, lookup_app_r by done. by rewrite lookup_app_l by lia.
  - apply suggest_in_courses_None.
    rewrite Forall_forall in Hnone. by eapply Hnone, list_elem_of_lookup_2.
Qed.

Lemma selection_fresh cid w pre out :
  progress w = pre ++ out ->
  match first_match cid out with
  | Some (pp, cr, c) =>
      exists l,
        progress w !! l = Some pp /\
        get_course_run_to_suggest (seq (length pre) (length out)) cid w
        = (Ok [PyProgressRef l; PyCourseRun cr; PyCourse c], w)
  | None => Forall (no_suggestion_in w cid) (seq (length pre) (length out))
  end.
Proof.
  intros Hw. unfold first_match.
  destruct (for_return out _) as [[[pp cr] c]|] eqn:Hm.
  - apply for_return_Some in Hm as (o1 & pp' & o2 & -> & Hnone & Hbody).
    destruct (suggest_in_courses cid (ProgramProgress.not_started pp'))
      as [[cr' c']|] eqn:Hs; [|done]. injection Hbody as -> -> ->.
    exists (length pre + length o1)%nat. split.
    + rewrite Hw, lookup_app_r by lia.
      replace (length pre + length o1 - length pre)%nat with (length o1) by lia.
      by apply list_lookup_middle.
    + rewrite length_app. simpl. rewrite seq_app. simpl.
      apply get_course_run_to_suggest_complete with pp.
      * apply (fresh_no_suggestion w cid pre o1 (pp :: o2) Hw).
        eapply Forall_impl; [exact Hnone|]. intros x Hx. simpl in Hx.
        by destruct (suggest_in_courses cid (ProgramProgress.not_started x)) as [[? ?]|].
      * rewrite Hw, lookup_app_r by lia.
        replace (length pre + length o1 - length pre)%nat with (length o1) by lia.
        by apply list_lookup_middle.
      * by apply suggest_in_courses_Some.
  - apply for_return_None in Hm.
    rewrite <- (app_nil_r out) in Hw.
    apply (fresh_no_suggestion w cid pre out [] Hw).
    eapply Forall_impl; [exact Hm|]. intros x Hx. simpl in Hx.
    by destruct (suggest_in_courses cid (ProgramProgress.not_started x)) as [[? ?]|].
Qed.

(** ** One learner, one course, all courses *)

(** The world once the meter has answered for a learner. *)
Lemma handle_user_no_commit env clp ds cid records user w :
  Forall2 (fun l d => programs w !! l = Some d) clp ds ->
  handle_user env false clp cid records user w
  = (match learner_record env cid ds user with
     | Ok r => Ok (records ++ [r])
     | Raise e => Raise e
     end,
     mkWorld (programs w) (progress w ++ meter_progress env user ds)
             (segment_calls w) (log w)).
Proof.
  intros Hrefs.
  pose proof (meter_progress_call_run env user clp w ds
                (mapM_read_program_Forall2 _ _ _ Hrefs)) as Hmeter.
  set (w2 := mkWorld (programs w) (progress w ++ meter_progress env user ds)
                     (segment_calls w) (log w)) in *.
  pose proof (selection_fresh cid w2 (progress w) (meter_progress env user ds) eq_refl)
    as Hsel.
  unfold learner_record.
  destruct (first_match cid (meter_progress env user ds)) as [[[pp cr] c]|].
  - destruct Hsel as (l & Hl & Hsel).
    pose proof (get_program_Forall2 clp ds l pp w2 Hrefs Hl) as Hprog.
    destruct (existsb _ ds).
    + destruct Hprog as (p & d & Hprog & Hp).
      assert (Hcr : get_course_run (Some p) cid w2
                    = (Ok (find_course_run (Program.courses d) cid), w2)).
      { unfold get_course_run, read_program, mbind, M_bind. by rewrite Hp. }
      by rewrite (handle_user_match env false _ _ records _ _ _ _ _ _ _ _ _
                    Hmeter Hsel Hprog Hcr).
    + unfold handle_user.
      rewrite (bind_ok _ _ _ _ _ Hmeter), (bind_ok _ _ _ _ _ Hsel). cbn [unpack3].
      unfold mbind at 1, M_bind at 1, mret at 1, M_ret at 1.
      cbn [truthy truthy_pyobj andb].
      by rewrite (bind_ok _ _ _ _ _ Hprog).
  - by apply handle_user_nothing with (seq (length (progress w))
                                         (length (meter_progress env user ds))).
Qed.

Lemma handle_users_no_commit env clp ds cid users records w :
  Forall2 (fun l d => programs w !! l = Some d) clp ds ->
  exists w',
    for_each_M users (handle_user env false clp cid) records w
    = (learners_records env cid ds users records, w').
Proof.
  revert records w. induction users as [|user users IH]; intros records w Hrefs.
  - by exists w.
  - rewrite for_each_M_cons, (handle_user_no_commit env clp ds cid records user w Hrefs).
    cbn [learners_records].
    destruct (learner_record env cid ds user) as [r|e]; [|by eexists].
    apply IH. done.
Qed.

Lemma Forall2_seq {B : Type} (P : nat -> B -> Prop) n (l : list B) :
  (forall i b, l !! i = Some b -> P (n + i)%nat b) -> Forall2 P (seq n (length l)) l.
Proof.
  revert n. induction l as [|b l IH]; intros n H; simpl; [constructor|].
  constructor.
  - rewrite <- (Nat.add_0_r n). by apply H.
  - apply IH. intros i b' Hi. replace (S n + i)%nat with (n + S i)%nat by lia.
    by apply H.
Qed.

(** The references [sort_programs] returns for the programs the catalog has
    just handed over stand for the ranked programs. *)
Lemma get_and_sort_programs env cid w :
  exists sorted w1,
    (course_linked_programs ← get_programs env cid; sort_programs course_linked_programs) w
    = (Ok sorted, w1) /\
    Forall2 (fun l d => programs w1 !! l = Some d) sorted (ranked_programs env cid).
Proof.
  set (cat := catalog_programs env cid). set (n := length (programs w)).
  set (w0 := mkWorld (programs w ++ cat) (progress w) (segment_calls w) (log w)).
  assert (Hget : get_programs env cid w = (Ok (seq n (length cat)), w0)) by done.
  assert (Hcat : forall i d, cat !! i = Some d -> programs w0 !! (n + i)%nat = Some d).
  { intros i d Hi. simpl. rewrite lookup_app_r by (unfold n; lia).
    by replace (n + i - length (programs w))%nat with i by (unfold n; lia). }
  assert (Hvalid : Forall (fun l => is_Some (programs w0 !! l)) (seq n (length cat))).
  { apply Forall_forall. intros l [Hge Hlt]%elem_of_seq.
    apply lookup_lt_is_Some. simpl. rewrite length_app. unfold n in *. lia. }
  destruct (sort_programs_run _ w0 Hvalid) as (ps' & Hrun & Hlen & Hlook).
  eexists _, _. split.
  - rewrite (bind_ok _ _ _ _ _ Hget). exact Hrun.
  - simpl. unfold ranked_programs. fold cat.
    apply (sorted_payloads_Forall2 (fun l d => ps' !! l = Some d)
             (program_rank w0) (fun d => revenue_rank (Program.type d)) ranked).
    apply Forall2_seq. intros i d Hi.
    pose proof (Hcat i d Hi) as Hl. split.
    + unfold program_rank. by rewrite Hl.
    + rewrite Hlook, decide_True, Hl; [done|].
      apply elem_of_seq. apply lookup_lt_Some in Hi. lia.
Qed.

Lemma handle_course_no_commit env records item w :
  exists w',
    handle_course env false records item w = (course_records env records item, w').
Proof.
  destruct item as [cid users]. unfold handle_course, course_records. simpl.
  destruct (get_and_sort_programs env cid w) as (sorted & w1 & Hrun & Hrefs).
  unfold mbind, M_bind in Hrun.
  unfold mbind at 1 2, M_bind at 1 2.
  destruct (get_programs env cid w) as [[refs|e] w0]; [|done].
  rewrite Hrun.
  assert (truthy sorted = truthy (ranked_programs env cid)) as ->.
  { by destruct Hrefs. }
  destruct (truthy (ranked_programs env cid)); [|by eexists].
  by apply handle_users_no_commit.
Qed.

Lemma handle_courses_no_commit env maps records w :
  exists w',
    for_each_M maps (handle_course env false) records w
    = (no_commit_records env maps records, w').
Proof.
  revert records w. induction maps as [|item maps IH]; intros records w.
  - by exists w.
  - rewrite for_each_M_cons. cbn [no_commit_records].
    destruct (handle_course_no_commit env records item w) as (w1 & ->).
    destruct (course_records env records item) as [records'|e]; [|by eexists].
    apply IH.
Qed.

(** ** The run with [--no-commit] *)

(** C5, as the code has it.  With [--no-commit] the sink receives no call,
    however the run ends.  The selection is made all the same and every match
    is recorded: the run ends as the records of the learners of the passed
    courses do, course by course and learner by learner, each record made of
    the first eligible course run over the progress of the learner in the
    ranked programs of the course, and its last log line holds these
    records.  When the committing run ends normally, the run with
    [--no-commit] ends normally too, with the same records and the same
    dicts. *)
Theorem no_commit_sends_nothing env :
  (forall w, segment_calls (handle env true w).2 = segment_calls w) /\
  (forall w maps w1,
      get_passed_course_to_users_maps env w = (Ok maps, w1) ->
      exists w2,
        handle env true w
        = (match no_commit_records env maps [] with
           | Ok _ => Ok tt
           | Raise e => Raise e
           end, w2) /\
        forall records,
          no_commit_records env maps [] = Ok records ->
          last (log w2) = Some (LogEmailsSent (length records) records)) /\
  (forall clp cid records user w pps w1 l cr c p r,
      meter_progress_call env user clp w = (Ok pps, w1) ->
      get_course_run_to_suggest pps cid w1
      = (Ok [PyProgressRef l; PyCourseRun cr; PyCourse c], w1) ->
      get_program clp (PyProgressRef l) w1 = (Ok p, w1) ->
      get_course_run p cid w1 = (Ok r, w1) ->
      handle_user env false clp cid records user w
      = (Ok (records ++ [email_sent_record user cid (CourseRun.key cr)]), w1)) /\
  (forall w wc,
      handle env false w = (Ok tt, wc) ->
      exists wd records,
        handle env true w = (Ok tt, wd) /\
        last (log wc) = Some (LogEmailsSent (length records) records) /\
        last (log wd) = Some (LogEmailsSent (length records) records) /\
        stores wd = stores wc).
Proof.
  split_and!.
  - apply sink_handle_no_commit.
  - intros w maps w1 Hmaps. unfold handle. cbn [negb].
    rewrite (bind_ok _ _ _ _ _ Hmaps).
    destruct (handle_courses_no_commit env maps [] w1) as (w2 & Hloop).
    destruct (no_commit_records env maps []) as [records|e].
    + rewrite (bind_ok _ _ _ _ _ Hloop). eexists. split; [reflexivity|].
      intros ? [= <-]. simpl. apply last_snoc.
    + rewrite (bind_raise _ _ _ _ _ Hloop). by eexists.
  - intros clp cid records user w pps w1 l cr c p r Hmeter Hsel Hprog Hrun.
    by rewrite (handle_user_match env false _ _ records _ _ _ _ _ _ _ _ _
                  Hmeter Hsel Hprog Hrun).
  - intros w wc Hc. unfold handle in *. cbn [negb] in *.
    apply bind_ok_inv in Hc as (maps & w1 & Hmaps & Hc).
    apply bind_ok_inv in Hc as (records & w2c & Hloop & Hc).
    destruct (follows_for_each_M maps (handle_course env false) (handle_course env true) []
                (fun s x => follows_handle_course env s x) w1 w1 records w2c eq_refl Hloop)
      as (w2d & Hloopd & Hstores).
    unfold LOGGER_info in Hc. injection Hc as <-.
    eexists _, records. split_and!.
    + rewrite (bind_ok _ _ _ _ _ Hmaps), (bind_ok _ _ _ _ _ Hloopd). reflexivity.
    + simpl. apply last_snoc.
    + simpl. apply last_snoc.
    + unfold stores in *. simpl. congruence.
Qed.

Lemma no_commit_sends_nothing_witness :
  exists w2,
    handle Run.env true initial_world = (Ok tt, w2) /\
    last (log w2)
    = Some (LogEmailsSent 1 ["User: alice, Completed Course: CS101, Suggested Course: CS202"]).
Proof.
  destruct (proj1 (proj2 (no_commit_sends_nothing Run.env)) initial_world
              [("CS101", [Run.alice])]
              (mkWorld [] [] [] [LogPassingGrades 1 9 1 1]))
    as (w2 & Hrun & Hlog).
  - vm_compute. reflexivity.
  - exists w2. split; [exact Hrun|].
    apply (Hlog ["User: alice, Completed Course: CS101, Suggested Course: CS202"]).
    vm_compute. reflexivity.
Defined.

(** C5, as the specification words it, fails: with the catalog whose XSeries
    does not list the completed course run, the run with [--no-commit]
    records the match of the learner and ends normally, where the committing
    run raises in [emit_event] and records nothing. *)
Lemma no_commit_records_counterexample :
  ~ (forall env w wd,
        handle env true w = (Ok tt, wd) ->
        exists wc, handle env false w = (Ok tt, wc) /\ last (log wc) = last (log wd)).
Proof.
  intros H.
  destruct (H Run.env_absent initial_world (handle Run.env_absent true initial_world).2)
    as (wc & Hc & _).
  - vm_compute. reflexivity.
  - vm_compute in Hc. discriminate Hc.
Qed.
